(** * Shallow embedding of the IOCP core (src/win/iocp.c)

    The C functions of [src/win/iocp.c], and the two address helpers of
    [src/win/tclPolyfill.c], are transcribed as Rocq functions:
    - C [int] values are [Z] with the 32-bit two's complement wrap-around
      written out ([CInt.wrap]);
    - the operating system, the Tcl library and the heap are explicit state
      or explicit answers passed to the functions;
    - calls that leave the function body (hooks of the vtable, lock and
      condition variable primitives, [ckfree]) are recorded, in program
      order, in a list of [event]s;
    - a call that does not come back ([Tcl_Panic], a store through a NULL
      pointer, a wait that is never released) is a constructor of
      [outcome]. *)

From Stdlib Require Import ZArith List Bool String Lia.
From Stdlib.Strings Require Import Byte.
Import ListNotations.
Open Scope Z_scope.

(** ** C integers *)

Module CInt.

Definition INT_MIN : Z := - 2 ^ 31.
Definition INT_MAX : Z := 2 ^ 31 - 1.

(** The values a C [int] can hold. *)
Definition in_int (z : Z) : Prop := INT_MIN <= z <= INT_MAX.

(** Reduction of a mathematical result to a 32-bit signed [int]. *)
Definition wrap (z : Z) : Z := (z + 2 ^ 31) mod 2 ^ 32 - 2 ^ 31.

Definition add (a b : Z) : Z := wrap (a + b).
Definition sub (a b : Z) : Z := wrap (a - b).

(** Conversion of an [int] argument to [unsigned int] (the parameter type
    of [attemptckalloc]) and to [size_t] (the count of [memcpy]; 64 bits on
    Win64). *)
Definition to_uint (z : Z) : Z := z mod 2 ^ 32.
Definition to_size_t (z : Z) : Z := z mod 2 ^ 64.

End CInt.

(** ** Tcl result codes *)

Definition IocpResultCode : Type := Z.
Definition TCL_OK : IocpResultCode := 0.
Definition TCL_ERROR : IocpResultCode := 1.

(** ** How a call ends *)

Inductive outcome (A : Type) : Type :=
| Returns (a : A)              (* the function returns to its caller *)
| Panics (msg : string)        (* [Tcl_Panic]: the process is aborted *)
| NullDeref                    (* a store through a NULL pointer *)
| Spinning.                    (* still in the [Sleep(1)] wait loop *)

Arguments Returns {A} a.
Arguments Panics {A} msg.
Arguments NullDeref {A}.
Arguments Spinning {A}.

(** ** Calls that leave the module, in program order *)

Inductive event : Type :=
| EvInitialize       (* vtblPtr->initialize(interp, chanPtr) *)
| EvFinalize         (* vtblPtr->finalize(interp, chanPtr) *)
| EvUnlock           (* IocpChannelUnlock / IocpTsdUnlock *)
| EvLockDelete       (* IocpLockDelete *)
| EvFree             (* ckfree of the structure *)
| EvWake.            (* WakeConditionVariable *)

(** ** Data buffer *)

Record IocpDataBuffer : Type := mkDataBuffer {
  dataPtr  : option (list byte);   (* NULL, or the allocated storage *)
  capacity : Z;
  begin    : Z;
  len      : Z
}.

(** [IocpDataBufferInit]; [attemptckalloc] is the heap's answer to a request
    of that many bytes ([None] is NULL). Returns the raw storage pointer
    and the initialised structure. *)
Definition IocpDataBufferInit (attemptckalloc : Z -> option (list byte))
    (capacity : Z) : option (list byte) * IocpDataBuffer :=
  if negb (capacity =? 0) then
    match attemptckalloc (CInt.to_uint capacity) with
    | Some storage => (Some storage, mkDataBuffer (Some storage) capacity 0 0)
    | None => (None, mkDataBuffer None 0 0 0)      (* capacity reset to 0 *)
    end
  else (None, mkDataBuffer None capacity 0 0).

(** [memcpy(dst, src + off, n)]: [n] is converted to [size_t]; the bytes
    [src[off .. off+n)] replace the first [n] bytes of [dst]. Reading
    outside the source block or writing outside the destination is
    undefined: [None]. *)
Definition memcpy (dst src : list byte) (off n : Z) : option (list byte) :=
  let cnt := CInt.to_size_t n in
  if (0 <=? off) && (off + cnt <=? Z.of_nat (List.length src))
     && (cnt <=? Z.of_nat (List.length dst))
  then Some (firstn (Z.to_nat cnt) (skipn (Z.to_nat off) src)
             ++ skipn (Z.to_nat cnt) dst)
  else None.

(** [IocpDataBufferMove]: the value returned, the updated buffer and the
    destination after the call; [None] when the [memcpy] is undefined. *)
Definition IocpDataBufferMove (dataBuf : IocpDataBuffer) (outPtr : list byte)
    (len_ : Z) : option (Z * IocpDataBuffer * list byte) :=
  let numCopied := if dataBuf.(len) >? len_ then len_ else dataBuf.(len) in
  match
    match dataBuf.(dataPtr) with
    | Some storage => memcpy outPtr storage dataBuf.(begin) numCopied
    | None => Some outPtr
    end
  with
  | None => None
  | Some outPtr' =>
      Some (numCopied,
            mkDataBuffer dataBuf.(dataPtr) dataBuf.(capacity)
              (CInt.add dataBuf.(begin) numCopied)
              (CInt.sub dataBuf.(len) numCopied),
            outPtr')
  end.

(** A sequence of [IocpDataBufferMove] calls, each with its own destination
    and requested length. The result lists, call by call, the count
    returned and the buffer after the call. *)
Fixpoint moves (dataBuf : IocpDataBuffer) (reqs : list (list byte * Z))
  : option (list (Z * IocpDataBuffer)) :=
  match reqs with
  | [] => Some []
  | (outPtr, n) :: rest =>
      match IocpDataBufferMove dataBuf outPtr n with
      | None => None
      | Some (k, dataBuf', _) =>
          match moves dataBuf' rest with
          | None => None
          | Some tl => Some ((k, dataBuf') :: tl)
          end
      end
  end.

(** The invariant of the data model: the window lies inside the capacity,
    a zero capacity has no storage, and present storage is a block of
    [capacity] bytes. *)
Definition DataBufferInv (b : IocpDataBuffer) : Prop :=
  0 <= b.(begin) /\ 0 <= b.(len) /\
  b.(begin) + b.(len) <= b.(capacity) /\ b.(capacity) <= CInt.INT_MAX /\
  (b.(capacity) = 0 -> b.(dataPtr) = None) /\
  (forall storage, b.(dataPtr) = Some storage ->
                   Z.of_nat (List.length storage) = b.(capacity)).

(** ** Locks, links and lists *)

(** Modelled from the spec: the lock macros of [tclWinIocp.h]
    ([IocpLockInit], [IocpChannelLock], [IocpChannelUnlock], [IocpTsdLock],
    [IocpTsdUnlock], [IocpLockDelete]) are not under src/. A lock is free,
    held by the caller, or destroyed. *)
Inductive IocpLock : Type := LockFree | LockHeld | LockDeleted.

Definition IocpLockInit : IocpLock := LockFree.
Definition IocpLockAcquire (l : IocpLock) : IocpLock := LockHeld.
Definition IocpLockRelease (l : IocpLock) : IocpLock := LockFree.
Definition IocpLockDelete (l : IocpLock) : IocpLock := LockDeleted.

(** Modelled from the spec: the intrusive list node and list head of
    [tclWinIocp.h]; pointers are addresses, [None] is NULL. *)
Record IocpLink : Type := mkLink { nextPtr : option Z; prevPtr : option Z }.
Record IocpList : Type := mkList { headPtr : option Z; tailPtr : option Z }.

Definition IocpLinkInit : IocpLink := mkLink None None.
Definition IocpListInit : IocpList := mkList None None.

(** ** Channel *)

Module Channel.

(** The hooks of the vtable live outside this file: only whether a slot is
    filled matters here, and a call of a filled slot is an [event]. *)
Record IocpChannelVtbl : Type := mkVtbl {
  initialize     : bool;      (* function pointer is not NULL *)
  finalize       : bool;
  allocationSize : Z
}.

Record IocpChannel : Type := mkChannel {
  inputBuffers : IocpList;
  readyLink    : IocpLink;
  tsdPtr       : option Z;    (* owning IocpTsd, NULL when not linked *)
  lock         : IocpLock;
  numRefs      : Z;
  vtblPtr      : IocpChannelVtbl;
  flags        : Z
}.

(** [IocpChannelNew]. [ckalloc] does not clear memory and the function does
    not assign [flags]: [garbage] is what the fresh block holds there. *)
Definition IocpChannelNew (garbage : Z) (vtblPtr : IocpChannelVtbl)
  : IocpChannel * list event :=
  (mkChannel IocpListInit IocpLinkInit None IocpLockInit 1 vtblPtr garbage,
   if vtblPtr.(initialize) then [EvInitialize] else []).

(** Modelled from the spec: [acquire()] increments the refcount; the source
    under src/ has no function for it. *)
Definition acquire (c : IocpChannel) : IocpChannel :=
  mkChannel c.(inputBuffers) c.(readyLink) c.(tsdPtr) c.(lock)
            (CInt.add c.(numRefs) 1) c.(vtblPtr) c.(flags).

(** Modelled from the spec: [IocpChannelLock] of [tclWinIocp.h], taken by
    the caller before the functions below. *)
Definition IocpChannelLock (c : IocpChannel) : IocpChannel :=
  mkChannel c.(inputBuffers) c.(readyLink) c.(tsdPtr)
            (IocpLockAcquire c.(lock)) c.(numRefs) c.(vtblPtr) c.(flags).

(** [IocpChannelDrop]: the storage of the channel after the call ([None]
    once it is passed to [ckfree]) and the calls made, in order. *)
Definition IocpChannelDrop (lockedChanPtr : IocpChannel)
  : outcome (option IocpChannel * list event) :=
  let c := mkChannel lockedChanPtr.(inputBuffers) lockedChanPtr.(readyLink)
             lockedChanPtr.(tsdPtr) lockedChanPtr.(lock)
             (CInt.sub lockedChanPtr.(numRefs) 1)
             lockedChanPtr.(vtblPtr) lockedChanPtr.(flags) in
  if c.(numRefs) <=? 0 then
    Returns (None,
             (if c.(vtblPtr).(finalize) then [EvFinalize] else [])
             ++ [EvUnlock; EvLockDelete; EvFree])
  else Returns (Some c, []).

(** [n] successive calls of [IocpChannelDrop] on the same pointer; a call
    on storage already freed is not made. *)
Fixpoint drops (n : nat) (c : IocpChannel)
  : list (option IocpChannel * list event) :=
  match n with
  | O => []
  | S n' =>
      match IocpChannelDrop c with
      | Returns (Some c', evs) => (Some c', evs) :: drops n' c'
      | Returns (None, evs) => [(None, evs)]
      | _ => []
      end
  end.

(** A channel is linked into a TSD when its owner link or one of its
    ready-queue pointers is set. *)
Definition linked (c : IocpChannel) : bool :=
  match c.(tsdPtr), c.(readyLink).(nextPtr), c.(readyLink).(prevPtr) with
  | None, None, None => false
  | _, _, _ => true
  end.

(** [IocpChannelWakeAfterCompletion]; the flag constant comes from
    [tclWinIocp.h] and is a parameter. *)
Definition IocpChannelWakeAfterCompletion (IOCP_CHAN_F_BLOCKED_FOR_IO : Z)
    (lockedChanPtr : IocpChannel) : IocpChannel * list event :=
  if negb (Z.land lockedChanPtr.(flags) IOCP_CHAN_F_BLOCKED_FOR_IO =? 0) then
    (mkChannel lockedChanPtr.(inputBuffers) lockedChanPtr.(readyLink)
       lockedChanPtr.(tsdPtr) lockedChanPtr.(lock) lockedChanPtr.(numRefs)
       lockedChanPtr.(vtblPtr)
       (Z.land lockedChanPtr.(flags) (Z.lnot IOCP_CHAN_F_BLOCKED_FOR_IO)),
     [EvWake])
  else (lockedChanPtr, []).

(** The calls of the last release: the finalize hook first when the
    vtable has one, then unlock, lock destruction and [ckfree]. *)
Definition final_events (c : IocpChannel) : list event :=
  (if c.(vtblPtr).(finalize) then [EvFinalize] else [])
  ++ [EvUnlock; EvLockDelete; EvFree].

(** The channel [c] with its refcount replaced. *)
Definition with_refs (c : IocpChannel) (n : Z) : IocpChannel :=
  mkChannel c.(inputBuffers) c.(readyLink) c.(tsdPtr) c.(lock) n
            c.(vtblPtr) c.(flags).

End Channel.

(** ** One-time initialization *)

Definition IOCP_INITSTATE_INIT : Z := 0.
Definition IOCP_INITSTATE_IN_PROGRESS : Z := 1.
Definition IOCP_INITSTATE_DONE : Z := 2.
Definition IOCP_INITSTATE_ERROR : Z := 3.

(** The Win32 interlocked primitives on a cell holding [dest]: the new
    content of the cell and the value returned (the initial content). *)
Definition InterlockedCompareExchange (dest exchange comparand : Z) : Z * Z :=
  (if dest =? comparand then exchange else dest, dest).

Definition InterlockedExchange (dest value : Z) : Z * Z := (value, dest).

(** What a run of [Iocp_DoOnce] does to the gate and to [once_fn], in
    program order. *)
Inductive once_event : Type :=
| GateSet (s : Z)     (* this call stored [s] in the gate *)
| OnceCall.           (* this call invoked [once_fn] *)

(** The wait loop of the IN_PROGRESS case. The gate is written by the
    thread that initializes; [polls] lists what the successive
    [InterlockedCompareExchange(stateP, IN_PROGRESS, IN_PROGRESS)] of this
    thread read. [inl] is a [return] inside the loop, [inr] the [break]. *)
Fixpoint wait_loop (polls : list Z) : outcome (Z + unit) * option Z :=
  match polls with
  | [] => (Spinning, None)
  | cell :: rest =>
      let prev_state := snd (InterlockedCompareExchange cell
                               IOCP_INITSTATE_IN_PROGRESS
                               IOCP_INITSTATE_IN_PROGRESS) in
      if prev_state =? IOCP_INITSTATE_DONE then (Returns (inl TCL_OK), Some cell)
      else if negb (prev_state =? IOCP_INITSTATE_IN_PROGRESS)
           then (Returns (inr tt), Some cell)
           else wait_loop rest          (* Sleep(1) *)
  end.

Record once_result (W : Type) : Type := mkOnce {
  once_code  : outcome IocpResultCode;
  once_state : Z;                 (* the gate after the call *)
  once_world : W;                 (* what [once_fn] works on, after the call *)
  once_trace : list once_event
}.

Arguments mkOnce {W}.
Arguments once_code {W}.
Arguments once_state {W}.
Arguments once_world {W}.
Arguments once_trace {W}.

(** [Iocp_DoOnce]. [stateP] is the content of the gate on entry,
    [clientdata] the state [once_fn] reads and writes. *)
Definition Iocp_DoOnce {W : Type} (polls : list Z) (stateP : Z)
    (once_fn : W -> IocpResultCode * W) (clientdata : W) : once_result W :=
  let '(cell, prev) := InterlockedCompareExchange stateP
                         IOCP_INITSTATE_IN_PROGRESS IOCP_INITSTATE_INIT in
  if prev =? IOCP_INITSTATE_DONE then
    mkOnce (Returns TCL_OK) cell clientdata []
  else if prev =? IOCP_INITSTATE_IN_PROGRESS then
    match wait_loop polls with
    | (Returns (inl code), seen) =>
        mkOnce (Returns code) (match seen with Some s => s | None => cell end)
               clientdata []
    | (Returns (inr _), seen) =>
        mkOnce (Returns TCL_ERROR) (match seen with Some s => s | None => cell end)
               clientdata []
    | (_, _) => mkOnce Spinning cell clientdata []
    end
  else if prev =? IOCP_INITSTATE_INIT then
    let '(code, w) := once_fn clientdata in
    if code =? TCL_OK then
      mkOnce (Returns TCL_OK)
             (fst (InterlockedExchange cell IOCP_INITSTATE_DONE)) w
             [GateSet cell; OnceCall; GateSet IOCP_INITSTATE_DONE]
    else
      mkOnce (Returns TCL_ERROR)
             (fst (InterlockedExchange cell IOCP_INITSTATE_ERROR)) w
             [GateSet cell; OnceCall; GateSet IOCP_INITSTATE_ERROR]
  else
    (* IOCP_INITSTATE_ERROR, and any value without a case label *)
    mkOnce (Returns TCL_ERROR) cell clientdata [].

(** ** Thread dispatch table *)

Module Tsd.

Record IocpTsd : Type := mkTsd {
  readyChannels : IocpList;
  lock          : IocpLock;      (* the lock of the ready list *)
  threadId      : Z;
  numRefs       : Z
}.

(** [IocpTsdNew]; [Tcl_GetCurrentThread] is the identity of the caller. *)
Definition IocpTsdNew (Tcl_GetCurrentThread : Z) : IocpTsd :=
  mkTsd IocpListInit (IocpLockAcquire IocpLockInit) Tcl_GetCurrentThread 1.

Definition panic_msg : string :=
  "Attempt to free IocpTsd with channels attached.".

(** [IocpTsdDrop]: the storage of the TSD after the call ([None] once it is
    passed to [ckfree]) and the calls made; [Tcl_Panic] does not return. *)
Definition IocpTsdDrop (lockedTsdPtr : IocpTsd)
  : outcome (option IocpTsd * list event) :=
  let t := mkTsd lockedTsdPtr.(readyChannels) lockedTsdPtr.(lock)
             lockedTsdPtr.(threadId) (CInt.sub lockedTsdPtr.(numRefs) 1) in
  let do_free := t.(numRefs) <=? 0 in
  if do_free && (match t.(readyChannels).(headPtr) with
                 | Some _ => true | None => false end)
  then Panics panic_msg
  else
    let t := mkTsd t.(readyChannels) (IocpLockRelease t.(lock))
               t.(threadId) t.(numRefs) in
    if do_free then Returns (None, [EvUnlock; EvFree])
    else Returns (Some t, [EvUnlock]).

(** The thread-specific slot as [IOCP_TSD_INIT(&iocpTsdDataKey)] yields
    it: [None] is a NULL [tsdPtrPtr]; [Some None] is a slot holding NULL;
    [Some (Some t)] a slot pointing to the TSD [t]. *)
Definition tsd_slot : Type := option (option IocpTsd).

(** [IocpTsdUnlinkThread]: the slot, the storage of the TSD that was
    unlinked (if any) and the calls made. *)
Definition IocpTsdUnlinkThread (tsdPtrPtr : tsd_slot)
  : outcome (tsd_slot * option IocpTsd * list event) :=
  match tsdPtrPtr with
  | Some (Some tsdPtr) =>
      let tsdPtr := mkTsd tsdPtr.(readyChannels) (IocpLockAcquire tsdPtr.(lock))
                      0 tsdPtr.(numRefs) in
      match IocpTsdDrop tsdPtr with
      | Returns (t, evs) => Returns (Some None, t, evs)
      | Panics m => Panics m
      | NullDeref => NullDeref
      | Spinning => Spinning
      end
  | _ => Returns (tsdPtrPtr, None, [])
  end.

(** What [IocpThreadInit] can touch of the calling thread. *)
Record thread : Type := mkThread {
  tsdSlot       : tsd_slot;
  thread_id     : Z;
  eventSources  : list (string * string);   (* setup and check procedures *)
  threadExitHandlers : list string
}.

(** The store [*tsdPtrPtr = v]. *)
Definition store (tsdPtrPtr : tsd_slot) (v : option IocpTsd)
  : outcome tsd_slot :=
  match tsdPtrPtr with
  | None => NullDeref
  | Some _ => Returns (Some v)
  end.

(** [IocpThreadInit]. The test is on the slot pointer [tsdPtrPtr], not on
    the slot's content. *)
Definition IocpThreadInit (th : thread) : outcome (IocpResultCode * thread) :=
  let tsdPtrPtr := th.(tsdSlot) in
  match tsdPtrPtr with
  | None =>                                        (* tsdPtrPtr == NULL *)
      match store tsdPtrPtr (Some (IocpTsdNew th.(thread_id))) with
      | Returns slot =>
          Returns (TCL_OK,
                   mkThread slot th.(thread_id)
                     (("IocpEventSetup", "IocpEventCheck")%string
                        :: th.(eventSources))
                     ("IocpThreadExitHandler"%string
                        :: th.(threadExitHandlers)))
      | Panics m => Panics m
      | NullDeref => NullDeref
      | Spinning => Spinning
      end
  | Some _ => Returns (TCL_OK, th)
  end.

End Tsd.

(** ** Completion subsystem *)

Definition HANDLE : Type := Z.

Record IocpSubSystem : Type := mkSubSystem {
  completion_port   : option HANDLE;     (* [None] is NULL *)
  completion_thread : option HANDLE
}.

Record Tcl_Interp : Type := mkInterp {
  objResult : string;                    (* the interpreter result *)
  commands  : list string;               (* Tcl_CreateObjCommand *)
  packages  : list (string * string)     (* Tcl_PkgProvide *)
}.

(** The process as the initialization sees it: the module state, the
    kernel handles that are open, the number of [WSAStartup] calls not yet
    matched by [WSACleanup], and the registered exit handlers. *)
Record process : Type := mkProcess {
  iocpModuleState : IocpSubSystem;
  openHandles     : list HANDLE;
  winsockRefs     : Z;
  exitHandlers    : list string
}.

(** The answers of the operating system to the three requests of
    [IocpProcessInit]. *)
Record os_answers : Type := mkOs {
  CreateIoCompletionPort : option HANDLE;
  WSAStartup             : Z;              (* 0 is success *)
  CreateThread           : option HANDLE
}.

(** [CloseHandle]: one open instance of the handle goes away. *)
Fixpoint CloseHandle (h : HANDLE) (hs : list HANDLE) : list HANDLE :=
  match hs with
  | [] => []
  | x :: tl => if x =? h then tl else x :: CloseHandle h tl
  end.

(** Updates of the process state, one per statement of the source. *)
Definition set_port (v : option HANDLE) (p : process) : process :=
  mkProcess (mkSubSystem v p.(iocpModuleState).(completion_thread))
            p.(openHandles) p.(winsockRefs) p.(exitHandlers).

Definition set_thread (v : option HANDLE) (p : process) : process :=
  mkProcess (mkSubSystem p.(iocpModuleState).(completion_port) v)
            p.(openHandles) p.(winsockRefs) p.(exitHandlers).

(** A successful creation call leaves a new open handle. *)
Definition opened (v : option HANDLE) (p : process) : process :=
  mkProcess p.(iocpModuleState)
            (match v with Some h => h :: p.(openHandles)
                        | None => p.(openHandles) end)
            p.(winsockRefs) p.(exitHandlers).

Definition closed (h : HANDLE) (p : process) : process :=
  mkProcess p.(iocpModuleState) (CloseHandle h p.(openHandles))
            p.(winsockRefs) p.(exitHandlers).

Definition winsock_started (p : process) : process :=
  mkProcess p.(iocpModuleState) p.(openHandles) (p.(winsockRefs) + 1)
            p.(exitHandlers).

Definition WSACleanup (p : process) : process :=
  mkProcess p.(iocpModuleState) p.(openHandles) (p.(winsockRefs) - 1)
            p.(exitHandlers).

Definition Tcl_CreateExitHandler (proc : string) (p : process) : process :=
  mkProcess p.(iocpModuleState) p.(openHandles) p.(winsockRefs)
            (proc :: p.(exitHandlers)).

Definition Tcl_SetResult (interp : Tcl_Interp) (msg : string) : Tcl_Interp :=
  mkInterp msg interp.(commands) interp.(packages).

Definition Tcl_GetCharLength (s : string) : Z := Z.of_nat (String.length s).

Definition winsock_msg : string := "Could not load winsock.".

(** [IocpProcessInit]. [Iocp_ReportLastError] is declared in
    [tclWinIocp.h] and defined outside src/: it is a parameter. The client
    data is the interpreter; the process is the global state. *)
Definition IocpProcessInit (os : os_answers)
    (Iocp_ReportLastError : Tcl_Interp -> Tcl_Interp)
    (st : Tcl_Interp * process) : IocpResultCode * (Tcl_Interp * process) :=
  let '(interp, p) := st in
  let p := set_port os.(CreateIoCompletionPort)
             (opened os.(CreateIoCompletionPort) p) in
  match p.(iocpModuleState).(completion_port) with
  | None => (TCL_ERROR, (Iocp_ReportLastError interp, p))
  | Some port =>
      if negb (os.(WSAStartup) =? 0) then
        let p := closed port p in
        let p := set_port None p in
        (TCL_ERROR, (Tcl_SetResult interp winsock_msg, p))
      else
        let p := winsock_started p in
        let p := set_thread os.(CreateThread) (opened os.(CreateThread) p) in
        match p.(iocpModuleState).(completion_thread) with
        | None =>
            let interp := Iocp_ReportLastError interp in
            let p := closed port p in
            let p := set_port None p in
            let p := WSACleanup p in
            (TCL_ERROR, (interp, p))
        | Some _ =>
            (TCL_OK,
             (interp, Tcl_CreateExitHandler "IocpProcessExitHandler" p))
        end
  end.

(** ** Package initialization *)

Record world : Type := mkWorld {
  iocpProcessInitFlag : Z;
  interp_ : Tcl_Interp;
  proc_   : process;
  thread_ : Tsd.thread
}.

Definition once_msg (PACKAGE_NAME : string) : string :=
  ("Unable to do one-time initialization for " ++ PACKAGE_NAME ++ ".")%string.
Definition thread_msg (PACKAGE_NAME : string) : string :=
  ("Unable to do thread initialization for " ++ PACKAGE_NAME ++ ".")%string.

(** The guarded [Tcl_SetResult] of both error paths. *)
Definition set_if_empty (interp : Tcl_Interp) (msg : string) : Tcl_Interp :=
  if Tcl_GetCharLength interp.(objResult) =? 0
  then Tcl_SetResult interp msg else interp.

(** The build-time choices and the environment of one [Iocp_Init] call. *)
Record init_env : Type := mkEnv {
  USE_TCL_STUBS   : bool;
  Tcl_InitStubs   : bool;              (* [false]: it returned NULL *)
  PACKAGE_NAME    : string;
  PACKAGE_VERSION : string;
  os_             : os_answers;
  Iocp_ReportLastError : Tcl_Interp -> Tcl_Interp;
  polls_          : list Z             (* see [wait_loop] *)
}.

(** [Iocp_Init]. *)
Definition Iocp_Init (e : init_env) (w : world)
  : outcome (IocpResultCode * world) :=
  if e.(USE_TCL_STUBS) && negb e.(Tcl_InitStubs) then Returns (TCL_ERROR, w)
  else
    let r := Iocp_DoOnce e.(polls_) w.(iocpProcessInitFlag)
               (IocpProcessInit e.(os_) e.(Iocp_ReportLastError))
               (w.(interp_), w.(proc_)) in
    let '(interp, p) := r.(once_world) in
    match r.(once_code) with
    | Returns code =>
        if negb (code =? TCL_OK) then
          Returns (TCL_ERROR,
                   mkWorld r.(once_state)
                     (set_if_empty interp (once_msg e.(PACKAGE_NAME)))
                     p w.(thread_))
        else
          match Tsd.IocpThreadInit w.(thread_) with
          | Returns (tcode, th) =>
              if tcode =? 0 then          (* ! IocpThreadInit(interp) *)
                Returns (TCL_ERROR,
                         mkWorld r.(once_state)
                           (set_if_empty interp (thread_msg e.(PACKAGE_NAME)))
                           p th)
              else
                Returns (TCL_OK,
                         mkWorld r.(once_state)
                           (mkInterp interp.(objResult)
                              ("iocp::socket"%string :: interp.(commands))
                              ((e.(PACKAGE_NAME), e.(PACKAGE_VERSION))
                                 :: interp.(packages)))
                           p th)
          | Panics m => Panics m
          | NullDeref => NullDeref
          | Spinning => Spinning
          end
    | Panics m => Panics m
    | NullDeref => NullDeref
    | Spinning => Spinning
    end.

(** ** The statements about the data buffer, as the specification has them *)

(** [move_out]: returns [min(length, max_len)], copies exactly that many
    bytes from offset [begin] of present storage into the destination (and
    nothing from absent storage), advances [begin] and shrinks [length] by
    the count. *)
Definition move_contract (b : IocpDataBuffer) (out : list byte) (max_len : Z)
  : Prop :=
  let n := Z.min b.(len) max_len in
  exists out',
    IocpDataBufferMove b out max_len =
      Some (n, mkDataBuffer b.(dataPtr) b.(capacity) (b.(begin) + n)
                 (b.(len) - n), out') /\
    match b.(dataPtr) with
    | Some storage =>
        let chunk := firstn (Z.to_nat n) (skipn (Z.to_nat b.(begin)) storage) in
        Z.of_nat (List.length chunk) = n /\
        out' = chunk ++ skipn (Z.to_nat n) out
    | None => out' = out
    end.

(** The destination of a move is large enough for what [memcpy] is asked
    to write (nothing is written when the storage is absent). *)
Definition room (b : IocpDataBuffer) (out : list byte) (max_len : Z) : Prop :=
  b.(dataPtr) = None \/ Z.min b.(len) max_len <= Z.of_nat (List.length out).

(** The two invariants the spec names for a data buffer. *)
Definition spec_inv (b : IocpDataBuffer) : Prop :=
  b.(begin) + b.(len) <= b.(capacity) /\
  (b.(capacity) = 0 -> b.(dataPtr) = None).

Fixpoint nonincreasing (l : list Z) : Prop :=
  match l with
  | a :: (b :: _) as tl => b <= a /\ nonincreasing tl
  | _ => True
  end.

Definition total (l : list Z) : Z := fold_right Z.add 0 l.

(** A run of moves from [b0]: the invariants hold at the start and after
    every call, the lengths never grow and are never negative, and the
    counts returned add up to at most what [b0] held. *)
Definition buffer_run (b0 : IocpDataBuffer) (reqs : list (list byte * Z))
  : Prop :=
  exists tr,
    moves b0 reqs = Some tr /\
    Forall spec_inv (b0 :: map snd tr) /\
    nonincreasing (map len (b0 :: map snd tr)) /\
    Forall (fun b => 0 <= b.(len)) (b0 :: map snd tr) /\
    total (map fst tr) <= b0.(len).

Definition buffer_claim (attemptckalloc : Z -> option (list byte))
    (capacity : Z) (reqs : list (list byte * Z)) : Prop :=
  buffer_run (snd (IocpDataBufferInit attemptckalloc capacity)) reqs.

(** A heap hands out blocks of the size requested. *)
Definition heap_ok (attemptckalloc : Z -> option (list byte)) : Prop :=
  forall n blk, 0 <= n -> attemptckalloc n = Some blk ->
                Z.of_nat (List.length blk) = n.

(** Two concrete heaps: one that is exhausted, one that always serves. *)
Definition no_heap : Z -> option (list byte) := fun _ => None.
Definition big_heap : Z -> option (list byte) :=
  fun n => Some (repeat x00 (Z.to_nat n)).

(** ** The statement about [Iocp_Init], as the specification has it *)

(** The call gets as far as the thread initialization: the stubs check
    passes, the one-time process initialization yields TCL_OK, and the
    slot pointer of the thread is not NULL. *)
Definition reaches_thread_init (e : init_env) (w : world) : Prop :=
  e.(USE_TCL_STUBS) && negb e.(Tcl_InitStubs) = false /\
  once_code (Iocp_DoOnce e.(polls_) w.(iocpProcessInitFlag)
               (IocpProcessInit e.(os_) e.(Iocp_ReportLastError))
               (w.(interp_), w.(proc_))) = Returns TCL_OK /\
  w.(thread_).(Tsd.tsdSlot) <> None.

(** As stated: never TCL_OK, and after a successful process initialization
    the result is the thread-initialization message, the code is TCL_ERROR
    and no command is registered. *)
Definition Iocp_Init_claim (e : init_env) (w : world) : Prop :=
  (forall w', Iocp_Init e w <> Returns (TCL_OK, w')) /\
  (reaches_thread_init e w ->
   exists w',
     Iocp_Init e w = Returns (TCL_ERROR, w') /\
     w'.(interp_).(objResult) = thread_msg e.(PACKAGE_NAME) /\
     w'.(interp_).(commands) = w.(interp_).(commands)).

(** As amended: the message is set only over an empty result. *)
Definition Iocp_Init_amended (e : init_env) (w : world) : Prop :=
  (forall w', Iocp_Init e w <> Returns (TCL_OK, w')) /\
  (reaches_thread_init e w ->
   exists w',
     Iocp_Init e w = Returns (TCL_ERROR, w') /\
     w'.(interp_).(objResult)
       = (if Tcl_GetCharLength w.(interp_).(objResult) =? 0
          then thread_msg e.(PACKAGE_NAME)
          else w.(interp_).(objResult)) /\
     w'.(interp_).(commands) = w.(interp_).(commands)).

(** ** Sample inputs *)

(** A buffer of four bytes with a window of two, starting at offset 1. *)
Definition sample_buffer : IocpDataBuffer :=
  mkDataBuffer (Some [x01; x02; x03; x04]) 4 1 2.

(** An initialization on a counter: it succeeds and counts its runs. *)
Definition count_ok (n : nat) : IocpResultCode * nat := (TCL_OK, S n).
Definition count_fail (n : nat) : IocpResultCode * nat := (TCL_ERROR, S n).

(** A channel out of [IocpChannelNew], acquired once more and locked. *)
Definition plain_vtbl : Channel.IocpChannelVtbl := Channel.mkVtbl true true 64.

Definition shared_channel : Channel.IocpChannel :=
  Channel.IocpChannelLock
    (Channel.acquire (fst (Channel.IocpChannelNew 0 plain_vtbl))).

(** A locked channel with one reference that is still owned by a TSD. *)
Definition linked_channel : Channel.IocpChannel :=
  Channel.mkChannel IocpListInit IocpLinkInit (Some 4096) LockHeld 1
                    plain_vtbl 0.

(** A locked channel that waits for a completion (flag bit 0, with another
    flag bit set as well), and one that does not wait. *)
Definition waiting_channel : Channel.IocpChannel :=
  Channel.mkChannel IocpListInit IocpLinkInit None LockHeld 1 plain_vtbl 5.
Definition idle_channel : Channel.IocpChannel :=
  Channel.mkChannel IocpListInit IocpLinkInit None LockHeld 1 plain_vtbl 4.

(** Three locked TSDs: shared by two holders, last reference with an empty
    queue, last reference with a channel still queued. *)
Definition shared_tsd : Tsd.IocpTsd :=
  Tsd.mkTsd (mkList (Some 4096) (Some 4096)) LockHeld 7 2.
Definition last_tsd : Tsd.IocpTsd := Tsd.mkTsd IocpListInit LockHeld 7 1.
Definition leaky_tsd : Tsd.IocpTsd :=
  Tsd.mkTsd (mkList (Some 4096) (Some 4096)) LockHeld 7 1.

Definition fresh_interp : Tcl_Interp := mkInterp "" [] [].
Definition fresh_process : process :=
  mkProcess (mkSubSystem None None) [] 0 [].

(** A stand-in for [Iocp_ReportLastError]. *)
Definition report_last_error (interp : Tcl_Interp) : Tcl_Interp :=
  Tcl_SetResult interp "The handle is invalid.".

(** The operating system serves the port and Winsock and refuses the thread. *)
Definition os_no_thread : os_answers := mkOs (Some 8) 0 None.

(** A second interpreter of a process whose one-time initialization is
    done: the gate is "done" and the thread slot holds NULL. *)
Definition later_env : init_env :=
  mkEnv false true "iocp" "0.1" (mkOs None 0 None) report_last_error [].

Definition later_world (result : string) : world :=
  mkWorld IOCP_INITSTATE_DONE (mkInterp result [] [])
          (mkProcess (mkSubSystem (Some 8) (Some 12)) [12; 8] 1
                     ["IocpProcessExitHandler"%string])
          (Tsd.mkThread (Some None) 7 [] []).

(** * The rest of [src/win/iocp.c] *)

(** ** Buffers *)

(** [IocpDataBufferFini]: the [ckfree] calls made. The structure is only
    read; the pointer in it is not cleared. *)
Definition IocpDataBufferFini (dataBufPtr : IocpDataBuffer) : list event :=
  match dataBufPtr.(dataPtr) with
  | Some _ => [EvFree]
  | None => []
  end.

(** The I/O buffer: the operation part [u] (its layout is in
    [tclWinIocp.h]; here its bytes) and the data buffer. *)
Record IocpBuffer : Type := mkBuffer {
  u    : list byte;
  data : IocpDataBuffer
}.

(** [IocpBufferNew]. [sizeof_u] is the size of [u]; [structPtr] is what
    [attemptckalloc(sizeof( *iocpBufPtr))] answers, the raw bytes of [u] in
    a fresh block or [None] for NULL. Returns the pointer and the [ckfree]
    calls made. *)
Definition IocpBufferNew (sizeof_u : nat) (structPtr : option (list byte))
    (attemptckalloc : Z -> option (list byte)) (capacity : Z)
  : option IocpBuffer * list event :=
  match structPtr with
  | None => (None, [])
  | Some _ =>
      let u0 := repeat x00 sizeof_u in                       (* memset *)
      let '(storage, dataBuf) := IocpDataBufferInit attemptckalloc capacity in
      match storage with
      | None => (None, [EvFree])
      | Some _ => (Some (mkBuffer u0 dataBuf), [])
      end
  end.

(** ** Waiting for a completion *)

(** [IocpChannelAwaitCompletion], up to the point where the caller blocks
    in [IocpConditionVariableWaitShared]: the channel as the waking thread
    finds it. *)
Definition IocpChannelAwaitCompletion (IOCP_CHAN_F_BLOCKED_FOR_IO : Z)
    (lockedChanPtr : Channel.IocpChannel) : Channel.IocpChannel :=
  Channel.mkChannel (Channel.inputBuffers lockedChanPtr)
    (Channel.readyLink lockedChanPtr) (Channel.tsdPtr lockedChanPtr)
    (Channel.lock lockedChanPtr) (Channel.numRefs lockedChanPtr)
    (Channel.vtblPtr lockedChanPtr)
    (Z.lor (Channel.flags lockedChanPtr) IOCP_CHAN_F_BLOCKED_FOR_IO).

(** ** Process teardown *)

(** The calls of [IocpProcessCleanup] that act on the dispatcher thread. *)
Inductive os_call : Type :=
| Posted (port : option HANDLE)          (* PostQueuedCompletionStatus *)
| Terminated (thread : option HANDLE).   (* TerminateThread(.., 0xdead) *)

(** [CloseHandle] of a field that may be NULL. *)
Definition closed_opt (h : option HANDLE) (p : process) : process :=
  match h with
  | Some x => closed x p
  | None => p
  end.

(** [IocpProcessCleanup]. [timed_out] says whether [WaitForSingleObject]
    answered WAIT_TIMEOUT. The state is the process and the log of the
    calls above, latest first. *)
Definition IocpProcessCleanup (timed_out : bool)
    (st : process * list os_call) : IocpResultCode * (process * list os_call) :=
  let '(p, log) := st in
  let log := Posted p.(iocpModuleState).(completion_port) :: log in
  let log := if timed_out
             then Terminated p.(iocpModuleState).(completion_thread) :: log
             else log in
  let p := closed_opt p.(iocpModuleState).(completion_thread) p in
  let p := set_thread None p in
  let p := closed_opt p.(iocpModuleState).(completion_port) p in
  let p := set_port None p in
  let p := WSACleanup p in
  (TCL_OK, (p, log)).

(** [IocpProcessExitHandler]: the cleanup behind its own gate,
    [iocpProcessCleanupFlag]; the result code is discarded. *)
Definition IocpProcessExitHandler (polls : list Z) (timed_out : bool)
    (iocpProcessCleanupFlag : Z) (st : process * list os_call)
  : once_result (process * list os_call) :=
  Iocp_DoOnce polls iocpProcessCleanupFlag (IocpProcessCleanup timed_out) st.

(** ** Thread exit *)

(** [Tcl_DeleteEventSource]: the first source registered with these two
    procedures goes away; without one nothing happens. *)
Fixpoint Tcl_DeleteEventSource (setup check : string)
    (sources : list (string * string)) : list (string * string) :=
  match sources with
  | [] => []
  | (s, c) :: tl =>
      if String.eqb s setup && String.eqb c check then tl
      else (s, c) :: Tcl_DeleteEventSource setup check tl
  end.

(** [IocpThreadExitHandler]: the thread afterwards, the storage of the TSD
    that was unlinked (if any) and the calls made. *)
Definition IocpThreadExitHandler (th : Tsd.thread)
  : outcome (Tsd.thread * option Tsd.IocpTsd * list event) :=
  match Tsd.IocpTsdUnlinkThread th.(Tsd.tsdSlot) with
  | Returns (slot, t, evs) =>
      Returns (Tsd.mkThread slot th.(Tsd.thread_id)
                 (Tcl_DeleteEventSource "IocpEventSetup" "IocpEventCheck"
                    th.(Tsd.eventSources))
                 th.(Tsd.threadExitHandlers),
               t, evs)
  | Panics m => Panics m
  | NullDeref => NullDeref
  | Spinning => Spinning
  end.

(** * [src/win/tclPolyfill.c] *)

Module Polyfill.

(** ** [TclSockGetPort] *)

(** What the function asks of Tcl and of Winsock. [Tcl_GetInt] answers
    the integer a string denotes ([None]: not an integer); with an
    interpreter it also leaves [int_error] of the string as the result.
    [getservbyname] answers the [s_port] field of the service entry
    ([None]: NULL). *)
Record port_env : Type := mkPortEnv {
  Tcl_GetInt    : string -> option Z;
  int_error     : string -> string;
  toExternal    : string -> string;          (* Tcl_UtfToExternalDString *)
  getservbyname : string -> string -> option Z
}.

Definition to_ushort (z : Z) : Z := z mod 2 ^ 16.

(** [ntohs] on a little-endian host: the two bytes change places. *)
Definition ntohs (x : Z) : Z := (x mod 256) * 256 + (x / 256) mod 256.

Definition port_too_high : string :=
  "couldn't open socket: port number too high".

(** [TclSockGetPort]: the result code, the content of [*portPtr] ([port0]
    on entry) and the interpreter. *)
Definition TclSockGetPort (env : port_env) (interp : Tcl_Interp)
    (string_ proto : string) (port0 : Z) : IocpResultCode * Z * Tcl_Interp :=
  let found :=
    match env.(Tcl_GetInt) string_ with            (* Tcl_GetInt(NULL, ..) *)
    | Some v => (v, None)                          (* *portPtr written *)
    | None =>
        (port0, env.(getservbyname) (env.(toExternal) string_) proto)
    end in
  match found with
  | (_, Some s_port) => (TCL_OK, ntohs (to_ushort s_port), interp)
  | (port1, None) =>
      match env.(Tcl_GetInt) string_ with          (* Tcl_GetInt(interp, ..) *)
      | None =>
          (TCL_ERROR, port1,
           Tcl_SetResult interp (env.(int_error) string_))
      | Some v =>
          if v >? 65535 then
            (TCL_ERROR, v, Tcl_SetResult interp port_too_high)
          else (TCL_OK, v, interp)
      end
  end.

(** ** [TclCreateSocketAddress] *)

Definition AF_UNSPEC : Z := 0.
Definition AF_INET : Z := 2.
Definition AF_INET6 : Z := 23.
Definition SOCK_STREAM : Z := 1.
Definition AI_PASSIVE : Z := 1.

(** The part of [struct addrinfo] the function reads and writes, and the
    memory holding such nodes, by address; [None] is NULL. *)
Record addrinfo : Type := mkAddr { ai_family : Z; ai_next : option nat }.

Definition store : Type := nat -> addrinfo.

(** The assignment [ptr->ai_next = v]; [None] when [ptr] is NULL. *)
Definition set_next (m : store) (a : nat) (v : option nat) : store :=
  fun x => if Nat.eqb x a then mkAddr (ai_family (m a)) v else m x.

Definition store_next (m : store) (ptr v : option nat) : option store :=
  match ptr with
  | Some a => Some (set_next m a v)
  | None => None
  end.

(** How a run ends: normally, in a store through NULL, or without having
    reached the end of the list in the steps allowed. *)
Inductive run (A : Type) : Type :=
| Done (a : A)
| Fault
| OutOfFuel.

Arguments Done {A} a.
Arguments Fault {A}.
Arguments OutOfFuel {A}.

(** The memory and the four local pointers of the sorting loop. *)
Record chains : Type := mkChains {
  mem    : store;
  v4head : option nat;
  v4ptr  : option nat;
  v6head : option nat;
  v6ptr  : option nat
}.

(** The body of the [for] loop for the node at address [a]. *)
Definition sort_step (c : chains) (a : nat) : option chains :=
  if ai_family (c.(mem) a) =? AF_INET then
    match c.(v4head) with
    | None => Some (mkChains c.(mem) (Some a) (Some a) c.(v6head) c.(v6ptr))
    | Some _ =>
        match store_next c.(mem) c.(v4ptr) (Some a) with
        | Some m => Some (mkChains m c.(v4head) (Some a) c.(v6head) c.(v6ptr))
        | None => None
        end
    end
  else
    match c.(v6head) with
    | None => Some (mkChains c.(mem) c.(v4head) c.(v4ptr) (Some a) (Some a))
    | Some _ =>
        match store_next c.(mem) c.(v6ptr) (Some a) with
        | Some m => Some (mkChains m c.(v4head) c.(v4ptr) c.(v6head) (Some a))
        | None => None
        end
    end.

(** [for (p = *addrlist; p != NULL; p = p->ai_next)], at most [fuel]
    iterations. *)
Fixpoint sort_loop (fuel : nat) (c : chains) (p : option nat) : run chains :=
  match p with
  | None => Done c
  | Some a =>
      match fuel with
      | O => OutOfFuel
      | S fuel' =>
          match sort_step c a with
          | None => Fault
          | Some c' => sort_loop fuel' c' (ai_next (c'.(mem) a))
          end
      end
  end.

(** The statements after the loop: the IPv6 chain is closed, the IPv4
    chain is put in front of it. Returns the memory and [*addrlist]. *)
Definition sort_join (c : chains) : option (store * option nat) :=
  let addrlist : option nat := None in
  match
    match c.(v6head) with
    | Some _ =>
        match store_next c.(mem) c.(v6ptr) None with
        | Some m => Some (m, c.(v6head))
        | None => None
        end
    | None => Some (c.(mem), addrlist)
    end
  with
  | None => None
  | Some (m, addrlist) =>
      match c.(v4head) with
      | Some _ =>
          match store_next m c.(v4ptr) addrlist with
          | Some m' => Some (m', c.(v4head))
          | None => None
          end
      | None => Some (m, addrlist)
      end
  end.

Record hints_t : Type := mkHints {
  h_flags : Z; h_family : Z; h_socktype : Z
}.

(** What the function asks of its environment. [getaddrinfo] answers its
    result code, the memory after the call (on success with the list it
    allocated) and what it left in [*addrlist]. *)
Record resolver : Type := mkResolver {
  utfToExternal : string -> string;
  format_port   : Z -> string;                        (* snprintf "%d" *)
  getaddrinfo   : option string -> option string -> hints_t ->
                  Z * (store * option nat);
  gai_strerrorA : Z -> string
}.

(** The three arguments the function hands to [getaddrinfo]. *)
Definition native_of (r : resolver) (host : option string) : option string :=
  option_map r.(utfToExternal) host.

Definition portstring_of (r : resolver) (host : option string) (port : Z)
  : option string :=
  match host with
  | Some _ => if port =? 0 then None else Some (r.(format_port) port)
  | None => Some (r.(format_port) port)
  end.

Definition hints_of (socketAF : option string) (willBind : Z) : hints_t :=
  let family :=
    match socketAF with
    | Some f => if String.eqb f "inet" then AF_INET
                else if String.eqb f "inet6" then AF_INET6
                else AF_UNSPEC
    | None => AF_UNSPEC
    end in
  let flags := if negb (willBind =? 0) then Z.lor 0 AI_PASSIVE else 0 in
  mkHints flags family SOCK_STREAM.

(** [TclCreateSocketAddress]. [socketAF] is the value of the variable
    [::tcl::unsupported::socketAF] ([None] without interpreter or without
    the variable). The result is the value returned, the memory,
    [*addrlist] and [*errorMsgPtr]. *)
Definition TclCreateSocketAddress (r : resolver) (fuel : nat)
    (socketAF : option string) (host : option string) (port : Z)
    (willBind : Z) (errorMsg0 : option string)
  : run (Z * store * option nat * option string) :=
  let '(result, (m, addrlist)) :=
    r.(getaddrinfo) (native_of r host) (portstring_of r host port)
                    (hints_of socketAF willBind) in
  if negb (result =? 0) then
    Done (0, m, addrlist, Some (r.(gai_strerrorA) result))
  else if negb (willBind =? 0) then
    match sort_loop fuel (mkChains m None None None None) addrlist with
    | Done c =>
        match sort_join c with
        | Some (m', addrlist') => Done (1, m', addrlist', errorMsg0)
        | None => Fault
        end
    | Fault => Fault
    | OutOfFuel => OutOfFuel
    end
  else Done (1, m, addrlist, errorMsg0).

(** The list of addresses reached from [p] by [ai_next], ending in [q]. *)
Fixpoint lseg (m : store) (p : option nat) (l : list nat) (q : option nat)
  : Prop :=
  match l with
  | [] => p = q
  | a :: tl => p = Some a /\ lseg m (ai_next (m a)) tl q
  end.

Definition is_v4 (m : store) (a : nat) : bool := ai_family (m a) =? AF_INET.
Definition not_v4 (m : store) (a : nat) : bool := negb (is_v4 m a).

(** One of the two chains the loop builds, holding the nodes [xs]: empty
    with a NULL head, or linked from the head up to the node the tail
    pointer points to, whose own [ai_next] is not yet settled. *)
Definition open_chain (m : store) (head ptr : option nat) (xs : list nat)
  : Prop :=
  (xs = [] /\ head = None) \/
  (exists xs0 z, xs = xs0 ++ [z] /\ ptr = Some z /\ lseg m head xs0 (Some z)).

(** What the loop body does to the chain it selects. *)
Definition push (m : store) (head ptr : option nat) (a : nat)
  : option (store * option nat * option nat) :=
  match head with
  | None => Some (m, Some a, Some a)
  | Some _ =>
      match store_next m ptr (Some a) with
      | Some m' => Some (m', head, Some a)
      | None => None
      end
  end.

End Polyfill.

(** A port environment: three strings that are integers, and the HTTP
    service, whose port 80 is stored in network byte order. *)
Definition sample_ports : Polyfill.port_env :=
  Polyfill.mkPortEnv
    (fun s => if String.eqb s "-5" then Some (-5)
              else if String.eqb s "70000" then Some 70000
              else if String.eqb s "8080" then Some 8080 else None)
    (fun s => ("expected integer but got " ++ s)%string)
    (fun s => s)
    (fun name proto => if String.eqb name "http" then Some 20480 else None).

(** Four addresses as [getaddrinfo] may return them: IPv6, IPv4, IPv6,
    IPv4, at the addresses 1 to 4, and a resolver that answers with this
    list. *)
Definition sample_store : Polyfill.store :=
  fun x =>
    match x with
    | 1%nat => Polyfill.mkAddr 23 (Some 2%nat)
    | 2%nat => Polyfill.mkAddr 2 (Some 3%nat)
    | 3%nat => Polyfill.mkAddr 23 (Some 4%nat)
    | 4%nat => Polyfill.mkAddr 2 None
    | _ => Polyfill.mkAddr 0 None
    end.

Definition sample_resolver : Polyfill.resolver :=
  Polyfill.mkResolver (fun s => s) (fun _ => "80"%string)
    (fun _ _ _ => (0, (sample_store, Some 1%nat)))
    (fun _ => "Host not found"%string).

(** The operating system serves all three requests. *)
Definition os_serves : os_answers := mkOs (Some 8) 0 (Some 12).

(** A thread at exit, its slot pointing to the TSD [t]. *)
Definition exiting_thread (t : Tsd.IocpTsd) : Tsd.thread :=
  Tsd.mkThread (Some (Some t)) 7
    [("IocpEventSetup", "IocpEventCheck")%string]
    ["IocpThreadExitHandler"%string].

(** The first [Iocp_Init] of a process, with an operating system that
    serves and with one that refuses the thread. *)
Definition first_env : init_env :=
  mkEnv false true "iocp" "0.1" os_serves report_last_error [].
Definition failing_env : init_env :=
  mkEnv false true "iocp" "0.1" os_no_thread report_last_error [].
Definition first_world : world :=
  mkWorld IOCP_INITSTATE_INIT fresh_interp fresh_process
          (Tsd.mkThread (Some None) 7 [] []).

(** * Theorems *)

(** ** C integers *)

Lemma wrap_id (z : Z) : CInt.in_int z -> CInt.wrap z = z.
Proof.
  unfold CInt.in_int, CInt.INT_MIN, CInt.INT_MAX, CInt.wrap. intros H.
  rewrite Z.mod_small; lia.
Qed.

Lemma wrap_in_int (z : Z) : CInt.in_int (CInt.wrap z).
Proof.
  unfold CInt.in_int, CInt.INT_MIN, CInt.INT_MAX, CInt.wrap.
  pose proof (Z.mod_pos_bound (z + 2 ^ 31) (2 ^ 32)). lia.
Qed.

Lemma to_size_t_id (z : Z) : 0 <= z <= CInt.INT_MAX -> CInt.to_size_t z = z.
Proof.
  unfold CInt.to_size_t, CInt.INT_MAX. intros H. apply Z.mod_small. lia.
Qed.

Lemma to_uint_id (z : Z) : 0 <= z <= CInt.INT_MAX -> CInt.to_uint z = z.
Proof.
  unfold CInt.to_uint, CInt.INT_MAX. intros H. apply Z.mod_small. lia.
Qed.

(** ** Data buffer *)

Lemma heap_ok_big : heap_ok big_heap.
Proof.
  intros n blk Hn H. unfold big_heap in H. injection H as <-.
  rewrite repeat_length. lia.
Qed.

(** The count computed by the conditional expression of
    [IocpDataBufferMove] is the minimum, for all integers. *)
Lemma numCopied_min (l m : Z) : (if l >? m then m else l) = Z.min l m.
Proof. destruct (Z.gtb_spec l m); lia. Qed.

(** A [memcpy] that stays inside both blocks is defined and moves exactly
    [n] bytes. *)
Lemma memcpy_in_bounds (dst src : list byte) (off n : Z) :
  0 <= off -> 0 <= n <= CInt.INT_MAX ->
  off + n <= Z.of_nat (List.length src) -> n <= Z.of_nat (List.length dst) ->
  let chunk := firstn (Z.to_nat n) (skipn (Z.to_nat off) src) in
  memcpy dst src off n = Some (chunk ++ skipn (Z.to_nat n) dst) /\
  Z.of_nat (List.length chunk) = n.
Proof.
  intros Hoff Hn Hsrc Hdst chunk. unfold memcpy.
  rewrite (to_size_t_id n) by lia.
  replace (0 <=? off) with true by (symmetry; apply Z.leb_le; lia).
  replace (off + n <=? Z.of_nat (List.length src)) with true
    by (symmetry; apply Z.leb_le; lia).
  replace (n <=? Z.of_nat (List.length dst)) with true
    by (symmetry; apply Z.leb_le; lia).
  split; [reflexivity|].
  subst chunk. rewrite length_firstn, length_skipn. lia.
Qed.

(** One move from a buffer that satisfies [DataBufferInv], with a
    non-negative request and room in the destination. *)
Lemma move_step (b : IocpDataBuffer) (out : list byte) (max_len : Z) :
  DataBufferInv b -> 0 <= max_len -> room b out max_len ->
  move_contract b out max_len /\
  DataBufferInv (mkDataBuffer b.(dataPtr) b.(capacity)
                   (b.(begin) + Z.min b.(len) max_len)
                   (b.(len) - Z.min b.(len) max_len)).
Proof.
  intros (Hb & Hl & Hc & Hmax & Hz & Hs) Hm Hroom.
  set (n := Z.min (len b) max_len) in *.
  assert (Hn : 0 <= n <= len b) by (subst n; lia).
  split.
  - unfold move_contract, IocpDataBufferMove. fold n.
    rewrite numCopied_min. fold n.
    unfold CInt.add, CInt.sub.
    rewrite !wrap_id
      by (unfold CInt.in_int, CInt.INT_MIN, CInt.INT_MAX in *; lia).
    destruct (dataPtr b) as [storage|] eqn:Hd.
    + specialize (Hs storage eq_refl).
      destruct Hroom as [Hroom|Hroom]; [congruence|].
      destruct (memcpy_in_bounds out storage (begin b) n) as [Hcpy Hlen];
        try lia.
      rewrite Hcpy. eexists. split; [reflexivity|]. split; [exact Hlen|reflexivity].
    + exists out. split; reflexivity.
  - unfold DataBufferInv; cbn. repeat split; try lia; assumption.
Qed.

Lemma inv_spec_inv (b : IocpDataBuffer) :
  DataBufferInv b -> spec_inv b /\ 0 <= b.(len).
Proof.
  intros (Hb & Hl & Hc & Hmax & Hz & Hs). unfold spec_inv. auto.
Qed.

(** X19: every run of non-negative requests from a buffer satisfying
    [DataBufferInv] keeps the invariants, whatever the buffer holds. *)
Lemma moves_from_inv (reqs : list (list byte * Z)) :
  forall b : IocpDataBuffer,
    DataBufferInv b ->
    Forall (fun r => 0 <= snd r /\ room b (fst r) (snd r)) reqs ->
    buffer_run b reqs.
Proof.
  induction reqs as [|[out m] rest IH]; intros b Hinv Hreqs.
  - destruct (inv_spec_inv b Hinv) as [Hsp Hlen].
    exists []. cbn. repeat split; auto; lia.
  - inversion Hreqs as [|r rs [Hm Hroom] Hrest]; subst. cbn in Hm, Hroom.
    destruct (move_step b out m Hinv Hm Hroom) as [[out' [Hmove _]] Hinv'].
    set (n := Z.min (len b) m) in *.
    set (b' := mkDataBuffer (dataPtr b) (capacity b) (begin b + n) (len b - n))
      in *.
    assert (Hn : 0 <= n <= len b)
      by (destruct Hinv as (_ & Hl & _); subst n; lia).
    destruct (IH b' Hinv') as (tr & Htr & Hsp & Hmono & Hnn & Hsum).
    { eapply Forall_impl; [|exact Hrest]. intros [o k] [Hk Hr]; cbn in *.
      split; [exact Hk|]. destruct Hr as [Hr|Hr]; [left; exact Hr|right].
      subst b'; cbn. lia. }
    destruct (inv_spec_inv b Hinv) as [Hspb Hlenb].
    exists ((n, b') :: tr). cbn [moves]. rewrite Hmove, Htr.
    split; [reflexivity|]. cbn [map fst snd] in *.
    split; [constructor; assumption|].
    split; [split; [subst b'; cbn; lia|exact Hmono]|].
    split; [constructor; assumption|].
    cbn [total fold_right]. fold (total (map fst tr)).
    subst b'; cbn in *. lia.
Qed.

(** With a heap that hands out blocks of the requested size,
    [IocpDataBufferInit] establishes the invariant that
    [IocpDataBufferMove] relies on. *)
Lemma init_inv (attemptckalloc : Z -> option (list byte)) (capacity : Z) :
  heap_ok attemptckalloc -> 0 <= capacity <= CInt.INT_MAX ->
  DataBufferInv (snd (IocpDataBufferInit attemptckalloc capacity)) /\
  len (snd (IocpDataBufferInit attemptckalloc capacity)) = 0.
Proof.
  intros Hheap Hcap. unfold IocpDataBufferInit.
  assert (Hmax : capacity <= 2147483647)
    by (unfold CInt.INT_MAX in Hcap; lia).
  destruct (Z.eqb_spec capacity 0) as [->|Hne]; cbn [negb].
  - split; [|reflexivity]. unfold DataBufferInv; cbn.
    repeat (split; [lia|]). split; [reflexivity|]. intros s Hs; discriminate Hs.
  - rewrite to_uint_id by exact Hcap.
    destruct (attemptckalloc capacity) as [storage|] eqn:Ha; cbn.
    + split; [|reflexivity]. unfold DataBufferInv; cbn.
      repeat (split; [lia|]).
      intros s Hs. injection Hs as <-. apply Hheap; [lia|exact Ha].
    + split; [|reflexivity]. unfold DataBufferInv, CInt.INT_MAX; cbn.
      repeat (split; [lia|]). split; [reflexivity|].
      intros s Hs; discriminate Hs.
Qed.

(** C4 (as amended): for every data buffer that satisfies its invariant,
    storage present or absent, and every requested length [max_len >= 0]
    with a destination that has room for the bytes to copy,
    [IocpDataBufferMove] returns [min(length, max_len)], copies exactly
    that many bytes from offset [begin] of present storage, copies nothing
    from absent storage, advances [begin] by the count returned and
    decreases [length] by it. *)
Theorem IocpDataBufferMove_contract
    (b : IocpDataBuffer) (out : list byte) (max_len : Z) :
  DataBufferInv b -> 0 <= max_len -> room b out max_len ->
  move_contract b out max_len.
Proof.
  intros Hinv Hm Hroom. exact (proj1 (move_step b out max_len Hinv Hm Hroom)).
Qed.

Lemma sample_buffer_inv : DataBufferInv sample_buffer.
Proof.
  unfold DataBufferInv, sample_buffer, CInt.INT_MAX; cbn.
  repeat split; try lia.
  intros s Hs. injection Hs as <-. reflexivity.
Defined.

Lemma IocpDataBufferMove_contract_witness :
  DataBufferInv sample_buffer /\ 0 <= 5 /\
  room sample_buffer [x00; x00; x00] 5 /\
  move_contract sample_buffer [x00; x00; x00] 5.
Proof.
  split; [exact sample_buffer_inv|].
  split; [lia|].
  split; [right; cbn; lia|].
  apply (IocpDataBufferMove_contract sample_buffer [x00; x00; x00] 5).
  - exact sample_buffer_inv.
  - lia.
  - right; cbn; lia.
Defined.

(** C4 as stated fails for a negative request: with [max_len = -1] the
    count passed to [memcpy] is [(size_t)-1], not [min(length, max_len)]
    bytes, on a buffer that satisfies its invariant. *)
Lemma IocpDataBufferMove_negative_request :
  DataBufferInv sample_buffer /\
  IocpDataBufferMove sample_buffer [x00; x00; x00] (-1) = None /\
  ~ move_contract sample_buffer [x00; x00; x00] (-1).
Proof.
  split; [exact sample_buffer_inv|].
  split; [vm_compute; reflexivity|].
  intros [out' [H _]]. vm_compute in H. discriminate H.
Qed.

(** A move with a non-negative request on an empty window at offset 0
    returns 0 and leaves the buffer as it is. *)
Lemma move_on_empty (b : IocpDataBuffer) (out : list byte) (m : Z) :
  b.(len) = 0 -> b.(begin) = 0 -> 0 <= m ->
  exists out', IocpDataBufferMove b out m = Some (0, b, out').
Proof.
  destruct b as [d c bg l]; cbn. intros -> -> Hm.
  unfold IocpDataBufferMove; cbn [len begin dataPtr capacity].
  rewrite numCopied_min. replace (Z.min 0 m) with 0 by lia.
  destruct d as [storage|].
  - unfold memcpy. cbn.
    replace (0 <=? Z.of_nat (List.length storage)) with true
      by (symmetry; apply Z.leb_le; lia).
    replace (0 <=? Z.of_nat (List.length out)) with true
      by (symmetry; apply Z.leb_le; lia).
    eexists. reflexivity.
  - eexists. reflexivity.
Qed.

Lemma moves_on_empty (reqs : list (list byte * Z)) (b : IocpDataBuffer) :
  b.(len) = 0 -> b.(begin) = 0 -> spec_inv b ->
  Forall (fun r => 0 <= snd r) reqs ->
  buffer_run b reqs.
Proof.
  intros Hl Hb Hsp. induction reqs as [|[out m] rest IH]; intros Hreqs.
  - exists []. cbn.
    split; [reflexivity|]. split; [constructor; [exact Hsp|constructor]|].
    split; [exact I|]. split; [constructor; [lia|constructor]|lia].
  - inversion Hreqs as [|r rs Hm Hrest]; subst. cbn in Hm.
    destruct (move_on_empty b out m Hl Hb Hm) as [out' Hmove].
    destruct (IH Hrest) as (tr & Htr & Hinv & Hmono & Hnn & Hsum).
    exists ((0, b) :: tr). cbn [moves]. rewrite Hmove, Htr.
    split; [reflexivity|]. cbn [map fst snd] in *.
    split; [constructor; [exact Hsp|exact Hinv]|].
    split; [split; [lia|exact Hmono]|].
    split; [constructor; [lia|exact Hnn]|].
    cbn [total fold_right]. fold (total (map fst tr)). lia.
Qed.

Lemma init_fresh (attemptckalloc : Z -> option (list byte)) (capacity : Z) :
  0 <= capacity ->
  let b := snd (IocpDataBufferInit attemptckalloc capacity) in
  b.(len) = 0 /\ b.(begin) = 0 /\ spec_inv b.
Proof.
  intros Hcap. unfold IocpDataBufferInit, spec_inv.
  destruct (Z.eqb_spec capacity 0) as [->|Hne]; cbn [negb].
  - cbn. repeat split; auto; lia.
  - destruct (attemptckalloc (CInt.to_uint capacity)); cbn.
    + repeat split; lia.
    + repeat split; auto; lia.
Qed.

(** C5 (as amended): for every data buffer established by
    [IocpDataBufferInit] with a capacity [>= 0], whatever the heap answers,
    and every subsequent sequence of [IocpDataBufferMove] calls with
    requested lengths [>= 0], [begin + length <= capacity] and
    [capacity = 0 -> storage absent] hold after every operation, [length]
    never grows and is never negative, and the counts returned add up to
    at most what the buffer held at the start. *)
Theorem DataBuffer_invariants
    (attemptckalloc : Z -> option (list byte)) (capacity : Z)
    (reqs : list (list byte * Z)) :
  0 <= capacity -> Forall (fun r => 0 <= snd r) reqs ->
  buffer_claim attemptckalloc capacity reqs.
Proof.
  intros Hcap Hreqs. unfold buffer_claim.
  destruct (init_fresh attemptckalloc capacity Hcap) as (Hl & Hb & Hsp).
  apply moves_on_empty; assumption.
Qed.

Lemma DataBuffer_invariants_witness :
  0 <= 4 /\
  Forall (fun r : list byte * Z => 0 <= snd r) [([x00], 3); ([], 0)] /\
  buffer_claim big_heap 4 [([x00], 3); ([], 0)].
Proof.
  assert (Hc : 0 <= 4) by lia.
  assert (Hr : Forall (fun r : list byte * Z => 0 <= snd r)
                 [([x00], 3); ([], 0)])
    by (repeat constructor; cbn; lia).
  split; [exact Hc|]. split; [exact Hr|].
  exact (DataBuffer_invariants big_heap 4 [([x00], 3); ([], 0)] Hc Hr).
Defined.

(** C5 as stated fails on two inputs. A request of [-1] after
    [IocpDataBufferInit] of capacity 0 returns [-1] and leaves [begin = -1]
    and [length = 1]: the length has grown. A capacity of [-1], served by
    the heap as a block of [(unsigned)-1] bytes, leaves
    [begin + length = 0 > capacity]. *)
Lemma DataBuffer_negative_inputs :
  (moves (snd (IocpDataBufferInit no_heap 0)) [([], -1)]
     = Some [(-1, mkDataBuffer None 0 (-1) 1)] /\
   ~ buffer_claim no_heap 0 [([], -1)]) /\
  (capacity (snd (IocpDataBufferInit big_heap (-1))) = -1 /\
   ~ buffer_claim big_heap (-1) []).
Proof.
  split; split.
  - vm_compute. reflexivity.
  - intros (tr & Htr & _ & Hmono & _).
    vm_compute in Htr. injection Htr as <-. cbn in Hmono. lia.
  - reflexivity.
  - intros (tr & _ & Hsp & _).
    apply Forall_inv in Hsp. destruct Hsp as [Hle _].
    unfold IocpDataBufferInit, big_heap in Hle.
    cbn [negb Z.eqb snd begin len capacity] in Hle. lia.
Qed.

(** ** One-time initialization *)

(** A compare-exchange that finds the comparand stores the exchange value;
    otherwise the cell is left alone. Both return what the cell held. *)
Lemma InterlockedCompareExchange_hit (d x : Z) :
  InterlockedCompareExchange d x d = (x, d).
Proof. unfold InterlockedCompareExchange. rewrite Z.eqb_refl. reflexivity. Qed.

Lemma InterlockedCompareExchange_miss (d x c : Z) :
  d <> c -> InterlockedCompareExchange d x c = (d, d).
Proof.
  intros H. unfold InterlockedCompareExchange.
  destruct (Z.eqb_spec d c); [contradiction|reflexivity].
Qed.

(** C1: on a gate that is "done" [Iocp_DoOnce] returns TCL_OK and on a gate
    that is "error" it returns TCL_ERROR, in both cases without a call of
    [once_fn] and leaving gate and client state as they were; on a gate
    that is "not-started" it first stores "in-progress", then calls
    [once_fn] exactly once, then stores "done" and returns TCL_OK when
    [once_fn] returned TCL_OK, and stores "error" and returns TCL_ERROR
    otherwise. *)
Theorem Iocp_DoOnce_contract (W : Type) (polls : list Z) (stateP : Z)
    (once_fn : W -> IocpResultCode * W) (clientdata : W) :
  let r := Iocp_DoOnce polls stateP once_fn clientdata in
  (stateP = IOCP_INITSTATE_DONE ->
     r = mkOnce (Returns TCL_OK) IOCP_INITSTATE_DONE clientdata []) /\
  (stateP = IOCP_INITSTATE_ERROR ->
     r = mkOnce (Returns TCL_ERROR) IOCP_INITSTATE_ERROR clientdata []) /\
  (stateP = IOCP_INITSTATE_INIT ->
     (fst (once_fn clientdata) = TCL_OK ->
        r = mkOnce (Returns TCL_OK) IOCP_INITSTATE_DONE
              (snd (once_fn clientdata))
              [GateSet IOCP_INITSTATE_IN_PROGRESS; OnceCall;
               GateSet IOCP_INITSTATE_DONE]) /\
     (fst (once_fn clientdata) <> TCL_OK ->
        r = mkOnce (Returns TCL_ERROR) IOCP_INITSTATE_ERROR
              (snd (once_fn clientdata))
              [GateSet IOCP_INITSTATE_IN_PROGRESS; OnceCall;
               GateSet IOCP_INITSTATE_ERROR])).
Proof.
  intros r. subst r. unfold Iocp_DoOnce.
  split; [|split].
  - intros ->. reflexivity.
  - intros ->. reflexivity.
  - intros ->. rewrite InterlockedCompareExchange_hit. cbn.
    destruct (once_fn clientdata) as [code w]; cbn.
    split; intros Hc.
    + rewrite Hc. reflexivity.
    + destruct (Z.eqb_spec code TCL_OK); [contradiction|reflexivity].
Qed.

Lemma Iocp_DoOnce_contract_witness :
  Iocp_DoOnce [] IOCP_INITSTATE_DONE count_ok O
    = mkOnce (Returns TCL_OK) IOCP_INITSTATE_DONE O [] /\
  Iocp_DoOnce [] IOCP_INITSTATE_ERROR count_ok O
    = mkOnce (Returns TCL_ERROR) IOCP_INITSTATE_ERROR O [] /\
  Iocp_DoOnce [] IOCP_INITSTATE_INIT count_ok O
    = mkOnce (Returns TCL_OK) IOCP_INITSTATE_DONE 1%nat
        [GateSet IOCP_INITSTATE_IN_PROGRESS; OnceCall;
         GateSet IOCP_INITSTATE_DONE] /\
  Iocp_DoOnce [] IOCP_INITSTATE_INIT count_fail O
    = mkOnce (Returns TCL_ERROR) IOCP_INITSTATE_ERROR 1%nat
        [GateSet IOCP_INITSTATE_IN_PROGRESS; OnceCall;
         GateSet IOCP_INITSTATE_ERROR].
Proof.
  split; [|split; [|split]].
  - exact (proj1 (Iocp_DoOnce_contract nat [] IOCP_INITSTATE_DONE count_ok O)
             eq_refl).
  - exact (proj1 (proj2
             (Iocp_DoOnce_contract nat [] IOCP_INITSTATE_ERROR count_ok O))
             eq_refl).
  - exact (proj1 (proj2 (proj2
             (Iocp_DoOnce_contract nat [] IOCP_INITSTATE_INIT count_ok O))
             eq_refl) eq_refl).
  - refine (proj2 (proj2 (proj2
             (Iocp_DoOnce_contract nat [] IOCP_INITSTATE_INIT count_fail O))
             eq_refl) _).
    cbn. unfold TCL_ERROR, TCL_OK. lia.
Defined.

(** A caller that finds the gate "in-progress" returns as soon as a poll
    reads "done" (TCL_OK) or anything but "in-progress" (TCL_ERROR), and is
    still waiting while every poll reads "in-progress". *)
Lemma wait_loop_in_progress (n : nat) (rest : list Z) :
  wait_loop (repeat IOCP_INITSTATE_IN_PROGRESS n ++ rest) = wait_loop rest.
Proof. induction n as [|n IH]; cbn; [reflexivity|exact IH]. Qed.

Lemma Iocp_DoOnce_waits (W : Type) (n : nat) (s : Z) (rest : list Z)
    (once_fn : W -> IocpResultCode * W) (clientdata : W) :
  s <> IOCP_INITSTATE_IN_PROGRESS ->
  Iocp_DoOnce (repeat IOCP_INITSTATE_IN_PROGRESS n ++ s :: rest)
              IOCP_INITSTATE_IN_PROGRESS once_fn clientdata
  = mkOnce (Returns (if s =? IOCP_INITSTATE_DONE then TCL_OK else TCL_ERROR))
           s clientdata [].
Proof.
  intros Hs. unfold Iocp_DoOnce. cbn.
  rewrite wait_loop_in_progress. cbn.
  destruct (Z.eqb_spec s IOCP_INITSTATE_DONE) as [->|Hd]; [reflexivity|].
  destruct (Z.eqb_spec s IOCP_INITSTATE_IN_PROGRESS); [contradiction|].
  reflexivity.
Qed.

(** ** Channel *)

Section ChannelDrop.

Import Channel.

Variable c : IocpChannel.

Lemma IocpChannelDrop_positive :
  1 < c.(numRefs) <= CInt.INT_MAX ->
  IocpChannelDrop c = Returns (Some (with_refs c (c.(numRefs) - 1)), []).
Proof.
  intros H. unfold IocpChannelDrop, CInt.sub; cbn.
  rewrite wrap_id
    by (unfold CInt.in_int, CInt.INT_MIN, CInt.INT_MAX in *; lia).
  destruct (Z.leb_spec (numRefs c - 1) 0); [lia|reflexivity].
Qed.

Lemma IocpChannelDrop_last :
  CInt.INT_MIN < c.(numRefs) <= 1 ->
  IocpChannelDrop c = Returns (None, final_events c).
Proof.
  intros H. unfold IocpChannelDrop, CInt.sub; cbn.
  rewrite wrap_id
    by (unfold CInt.in_int, CInt.INT_MIN, CInt.INT_MAX in *; lia).
  destruct (Z.leb_spec (numRefs c - 1) 0); [reflexivity|lia].
Qed.

(** C2 (where the code departs from the claim): a release that leaves the
    refcount positive decrements it by one, runs no hook and frees
    nothing, and makes no unlock call either: the channel that was passed
    in locked is still locked when [IocpChannelDrop] returns. *)
Theorem IocpChannelDrop_keeps_lock :
  1 < c.(numRefs) <= CInt.INT_MAX -> c.(lock) = LockHeld ->
  exists c',
    IocpChannelDrop c = Returns (Some c', []) /\
    c'.(numRefs) = c.(numRefs) - 1 /\
    c'.(lock) = LockHeld.
Proof.
  intros H Hl. exists (with_refs c (c.(numRefs) - 1)).
  split; [apply IocpChannelDrop_positive; exact H|].
  split; [reflexivity|exact Hl].
Qed.

(** C3 (where the code departs from the claim): a release that brings the
    refcount to zero or below on a channel that is still linked into a TSD
    returns normally after passing the channel to [ckfree]; there is no
    panic. *)
Theorem IocpChannelDrop_frees_linked :
  linked c = true -> CInt.INT_MIN < c.(numRefs) <= 1 ->
  IocpChannelDrop c = Returns (None, final_events c) /\
  In EvFree (final_events c) /\
  (forall msg, IocpChannelDrop c <> Panics msg).
Proof.
  intros _ H. rewrite (IocpChannelDrop_last H).
  split; [reflexivity|]. split.
  - unfold final_events. apply in_or_app. right. cbn. auto.
  - intros msg Hp. discriminate Hp.
Qed.

End ChannelDrop.

Lemma drops_step (n : nat) (c : Channel.IocpChannel) :
  Channel.drops (S n) c =
  match Channel.IocpChannelDrop c with
  | Returns (Some c', evs) => (Some c', evs) :: Channel.drops n c'
  | Returns (None, evs) => [(None, evs)]
  | _ => []
  end.
Proof. reflexivity. Qed.

(** [n + 1] releases of a channel whose refcount is [n + 1]: the first [n]
    return with no call made and the lock field untouched, the last one
    makes the calls of [final_events]. *)
Lemma drops_sequence (n : nat) :
  forall c : Channel.IocpChannel,
    Channel.numRefs c = Z.of_nat n + 1 -> Z.of_nat n + 1 <= CInt.INT_MAX ->
    exists pre,
      Channel.drops (S n) c = pre ++ [(None, Channel.final_events c)] /\
      List.length pre = n /\
      Forall (fun r => snd r = [] /\
                       exists c', fst r = Some c' /\
                                  Channel.lock c' = Channel.lock c) pre.
Proof.
  induction n as [|n IH]; intros c Hrefs Hmax.
  - exists []. rewrite drops_step.
    rewrite IocpChannelDrop_last
      by (unfold CInt.INT_MIN; rewrite Hrefs; cbn; lia).
    cbn. auto.
  - rewrite drops_step.
    rewrite IocpChannelDrop_positive by lia.
    destruct (IH (Channel.with_refs c (Channel.numRefs c - 1))) as (pre & Hd & Hl & Hf).
    { cbn. lia. }
    { lia. }
    exists ((Some (Channel.with_refs c (Channel.numRefs c - 1)), []) :: pre).
    rewrite Hd. split; [reflexivity|]. split; [cbn; lia|].
    constructor; [|exact Hf].
    cbn. split; [reflexivity|]. eexists. split; reflexivity.
Qed.

Lemma IocpChannelDrop_keeps_lock_witness :
  1 < Channel.numRefs shared_channel <= CInt.INT_MAX /\
  Channel.lock shared_channel = LockHeld /\
  exists c',
    Channel.IocpChannelDrop shared_channel = Returns (Some c', []) /\
    Channel.numRefs c' = Channel.numRefs shared_channel - 1 /\
    Channel.lock c' = LockHeld.
Proof.
  assert (H : 1 < Channel.numRefs shared_channel <= CInt.INT_MAX)
    by (vm_compute; split; [reflexivity|discriminate]).
  split; [exact H|]. split; [reflexivity|].
  exact (IocpChannelDrop_keeps_lock shared_channel H eq_refl).
Defined.

Lemma IocpChannelDrop_frees_linked_witness :
  Channel.linked linked_channel = true /\
  CInt.INT_MIN < Channel.numRefs linked_channel <= 1 /\
  Channel.IocpChannelDrop linked_channel
    = Returns (None, [EvFinalize; EvUnlock; EvLockDelete; EvFree]).
Proof.
  assert (H : CInt.INT_MIN < Channel.numRefs linked_channel <= 1)
    by (vm_compute; split; [reflexivity|discriminate]).
  split; [reflexivity|]. split; [exact H|].
  exact (proj1 (IocpChannelDrop_frees_linked linked_channel eq_refl H)).
Defined.

Lemma clear_mask_bits (f m : Z) (i : Z) :
  Z.testbit (Z.land f (Z.lnot m)) i = Z.testbit f i && negb (Z.testbit m i).
Proof.
  rewrite Z.land_spec. destruct (Z.neg_nonneg_cases i) as [Hi|Hi].
  - rewrite !Z.testbit_neg_r by exact Hi. reflexivity.
  - rewrite Z.lnot_spec by exact Hi. reflexivity.
Qed.

(** C6: on a channel whose "blocked for I/O" flag is set,
    [IocpChannelWakeAfterCompletion] clears the bits of that flag, keeps
    every other bit and every other field, and signals the condition
    variable once; on a channel whose flag is clear it changes nothing and
    makes no call. *)
Theorem IocpChannelWakeAfterCompletion_spec
    (IOCP_CHAN_F_BLOCKED_FOR_IO : Z) (c : Channel.IocpChannel) :
  let r := Channel.IocpChannelWakeAfterCompletion IOCP_CHAN_F_BLOCKED_FOR_IO c in
  (Z.land (Channel.flags c) IOCP_CHAN_F_BLOCKED_FOR_IO <> 0 ->
     snd r = [EvWake] /\
     fst r = Channel.mkChannel (Channel.inputBuffers c) (Channel.readyLink c)
               (Channel.tsdPtr c) (Channel.lock c) (Channel.numRefs c)
               (Channel.vtblPtr c) (Channel.flags (fst r)) /\
     Z.land (Channel.flags (fst r)) IOCP_CHAN_F_BLOCKED_FOR_IO = 0 /\
     forall i, Z.testbit (Channel.flags (fst r)) i
               = Z.testbit (Channel.flags c) i
                 && negb (Z.testbit IOCP_CHAN_F_BLOCKED_FOR_IO i)) /\
  (Z.land (Channel.flags c) IOCP_CHAN_F_BLOCKED_FOR_IO = 0 ->
     r = (c, [])).
Proof.
  intros r. subst r. unfold Channel.IocpChannelWakeAfterCompletion.
  destruct (Z.eqb_spec (Z.land (Channel.flags c) IOCP_CHAN_F_BLOCKED_FOR_IO) 0)
    as [Hz|Hnz]; cbn [negb fst snd Channel.flags].
  - split; [intros H; contradiction|intros _; reflexivity].
  - split; [intros _|intros H; contradiction].
    split; [reflexivity|]. split; [reflexivity|]. split.
    + apply Z.bits_inj'. intros i Hi.
      rewrite Z.land_spec, clear_mask_bits, Z.bits_0.
      destruct (Z.testbit (Channel.flags c) i),
               (Z.testbit IOCP_CHAN_F_BLOCKED_FOR_IO i); reflexivity.
    + intros i. apply clear_mask_bits.
Qed.

Lemma IocpChannelWakeAfterCompletion_spec_witness :
  (Channel.IocpChannelWakeAfterCompletion 1 waiting_channel
     = (idle_channel, [EvWake])) /\
  snd (Channel.IocpChannelWakeAfterCompletion 1 waiting_channel) = [EvWake] /\
  Channel.IocpChannelWakeAfterCompletion 1 idle_channel = (idle_channel, []).
Proof.
  split; [reflexivity|]. split.
  - refine (proj1 (proj1
             (IocpChannelWakeAfterCompletion_spec 1 waiting_channel) _)).
    vm_compute. discriminate.
  - exact (proj2 (IocpChannelWakeAfterCompletion_spec 1 idle_channel)
             eq_refl).
Defined.

(** ** Thread dispatch table *)

(** C7: [IocpTsdDrop] decrements the refcount; when the result is [<= 0]
    and the ready queue is not empty it panics and frees nothing; when the
    result is [<= 0] and the queue is empty it unlocks and then frees the
    TSD; when the result is positive it only unlocks, and the queue, the
    thread identity and the decremented refcount stay in the TSD. These
    are the only ways the call ends, so the TSD is freed only with a
    refcount [<= 0]. *)
Theorem IocpTsdDrop_spec (t : Tsd.IocpTsd) :
  let n := CInt.sub (Tsd.numRefs t) 1 in
  (CInt.INT_MIN < Tsd.numRefs t <= CInt.INT_MAX -> n = Tsd.numRefs t - 1) /\
  (n <= 0 -> headPtr (Tsd.readyChannels t) <> None ->
     Tsd.IocpTsdDrop t = Panics Tsd.panic_msg) /\
  (n <= 0 -> headPtr (Tsd.readyChannels t) = None ->
     Tsd.IocpTsdDrop t = Returns (None, [EvUnlock; EvFree])) /\
  (0 < n ->
     Tsd.IocpTsdDrop t
     = Returns (Some (Tsd.mkTsd (Tsd.readyChannels t) LockFree
                                (Tsd.threadId t) n), [EvUnlock])) /\
  (forall evs, Tsd.IocpTsdDrop t = Returns (None, evs) ->
               n <= 0 /\ headPtr (Tsd.readyChannels t) = None).
Proof.
  intros n. subst n. unfold Tsd.IocpTsdDrop; cbn.
  split.
  { intros H. unfold CInt.sub. apply wrap_id.
    unfold CInt.in_int, CInt.INT_MIN, CInt.INT_MAX in *. lia. }
  destruct (Z.leb_spec (CInt.sub (Tsd.numRefs t) 1) 0) as [Hle|Hgt];
    destruct (headPtr (Tsd.readyChannels t)) as [h|] eqn:Hh; cbn.
  - split; [reflexivity|]. split; [intros _ H; discriminate H|].
    split; [lia|]. intros evs H; discriminate H.
  - split; [intros _ H; contradiction|]. split; [reflexivity|].
    split; [lia|]. intros evs _. split; [exact Hle|reflexivity].
  - split; [lia|]. split; [lia|]. split; [reflexivity|].
    intros evs H; discriminate H.
  - split; [lia|]. split; [lia|]. split; [reflexivity|].
    intros evs H; discriminate H.
Qed.

Lemma IocpTsdDrop_spec_witness :
  Tsd.IocpTsdDrop leaky_tsd = Panics Tsd.panic_msg /\
  Tsd.IocpTsdDrop last_tsd = Returns (None, [EvUnlock; EvFree]) /\
  Tsd.IocpTsdDrop shared_tsd
  = Returns (Some (Tsd.mkTsd (mkList (Some 4096) (Some 4096)) LockFree 7 1),
             [EvUnlock]).
Proof.
  split; [|split].
  - refine (proj1 (proj2 (IocpTsdDrop_spec leaky_tsd)) _ _).
    + vm_compute. discriminate.
    + discriminate.
  - refine (proj1 (proj2 (proj2 (IocpTsdDrop_spec last_tsd))) _ eq_refl).
    vm_compute. discriminate.
  - refine (proj1 (proj2 (proj2 (proj2 (IocpTsdDrop_spec shared_tsd)))) _).
    vm_compute. reflexivity.
Defined.

(** The thread-exit path: [IocpTsdUnlinkThread] empties the slot, clears
    the thread identity and drops the reference of the thread. *)
Lemma IocpTsdUnlinkThread_drops (t : Tsd.IocpTsd) :
  Tsd.IocpTsdUnlinkThread (Some (Some t))
  = match Tsd.IocpTsdDrop (Tsd.mkTsd (Tsd.readyChannels t) LockHeld 0
                                     (Tsd.numRefs t)) with
    | Returns (t', evs) => Returns (Some None, t', evs)
    | Panics m => Panics m
    | NullDeref => NullDeref
    | Spinning => Spinning
    end.
Proof. reflexivity. Qed.

(** C8 (where the code departs from the claim): whenever the slot pointer
    is not NULL, and so on the first call of a thread, whose slot holds
    NULL, [IocpThreadInit] returns TCL_OK and leaves the slot, the event
    sources and the exit handlers as they were: no TSD is created and
    nothing is registered. *)
Theorem IocpThreadInit_creates_nothing
    (slot : option Tsd.IocpTsd) (id : Z)
    (sources : list (string * string)) (handlers : list string) :
  Tsd.IocpThreadInit (Tsd.mkThread (Some slot) id sources handlers)
  = Returns (TCL_OK, Tsd.mkThread (Some slot) id sources handlers).
Proof. reflexivity. Qed.

(** The body of the [if] is entered only with a NULL slot pointer, where
    its first statement stores through that pointer. *)
Lemma IocpThreadInit_null_slot (id : Z)
    (sources : list (string * string)) (handlers : list string) :
  Tsd.IocpThreadInit (Tsd.mkThread None id sources handlers) = NullDeref.
Proof. reflexivity. Qed.

(** ** Completion subsystem *)

Lemma CloseHandle_head (h : HANDLE) (hs : list HANDLE) :
  CloseHandle h (h :: hs) = hs.
Proof. cbn. rewrite Z.eqb_refl. reflexivity. Qed.

(** C9: whenever [IocpProcessInit] returns TCL_ERROR, the completion-port
    field is NULL, the open handles and the Winsock start count are what
    they were on entry (the port is closed again, [WSACleanup] matches a
    [WSAStartup] that succeeded), no exit handler is registered, no
    dispatcher thread is recorded in a module state that recorded none on
    entry, and the interpreter got the error, from [Iocp_ReportLastError]
    or as the Winsock message. *)
Theorem IocpProcessInit_error_atomic
    (os : os_answers) (report : Tcl_Interp -> Tcl_Interp)
    (interp : Tcl_Interp) (p : process) :
  fst (IocpProcessInit os report (interp, p)) = TCL_ERROR ->
  let interp' := fst (snd (IocpProcessInit os report (interp, p))) in
  let p' := snd (snd (IocpProcessInit os report (interp, p))) in
  completion_port (iocpModuleState p') = None /\
  openHandles p' = openHandles p /\
  winsockRefs p' = winsockRefs p /\
  exitHandlers p' = exitHandlers p /\
  (completion_thread (iocpModuleState p) = None ->
   completion_thread (iocpModuleState p') = None) /\
  (interp' = report interp \/ interp' = Tcl_SetResult interp winsock_msg).
Proof.
  unfold IocpProcessInit.
  destruct os as [[port|] wsa [thr|]]; cbn;
    destruct (Z.eqb_spec wsa 0) as [Hw|Hw]; cbn;
    try rewrite Z.eqb_refl; intros Hcode;
    try discriminate Hcode;
    repeat split; auto; lia.
Qed.

Lemma IocpProcessInit_error_atomic_witness :
  fst (IocpProcessInit os_no_thread report_last_error
         (fresh_interp, fresh_process)) = TCL_ERROR /\
  let p' := snd (snd (IocpProcessInit os_no_thread report_last_error
                        (fresh_interp, fresh_process))) in
  completion_port (iocpModuleState p') = None /\
  openHandles p' = openHandles fresh_process /\
  winsockRefs p' = winsockRefs fresh_process /\
  completion_thread (iocpModuleState p') = None.
Proof.
  split; [reflexivity|].
  destruct (IocpProcessInit_error_atomic os_no_thread report_last_error
              fresh_interp fresh_process eq_refl)
    as (Hport & Hhandles & Hws & _ & Hthr & _).
  cbv zeta.
  split; [exact Hport|]. split; [exact Hhandles|]. split; [exact Hws|].
  exact (Hthr eq_refl).
Defined.

(** ** Package initialization *)

(** A successful [IocpProcessInit] leaves the interpreter alone. *)
Lemma IocpProcessInit_ok_interp
    (os : os_answers) (report : Tcl_Interp -> Tcl_Interp)
    (interp : Tcl_Interp) (p : process) :
  fst (IocpProcessInit os report (interp, p)) = TCL_OK ->
  fst (snd (IocpProcessInit os report (interp, p))) = interp.
Proof.
  unfold IocpProcessInit.
  destruct os as [[port|] wsa [thr|]]; cbn;
    destruct (Z.eqb_spec wsa 0) as [Hw|Hw]; cbn;
    intros Hcode; try discriminate Hcode; reflexivity.
Qed.

(** A gate that yields TCL_OK either left the client state alone or ran
    an [once_fn] that returned TCL_OK. *)
Lemma Iocp_DoOnce_ok_world (W : Type) (polls : list Z) (flag : Z)
    (once_fn : W -> IocpResultCode * W) (clientdata : W) :
  once_code (Iocp_DoOnce polls flag once_fn clientdata) = Returns TCL_OK ->
  once_world (Iocp_DoOnce polls flag once_fn clientdata) = clientdata \/
  (fst (once_fn clientdata) = TCL_OK /\
   once_world (Iocp_DoOnce polls flag once_fn clientdata)
     = snd (once_fn clientdata)).
Proof.
  unfold Iocp_DoOnce, InterlockedCompareExchange.
  destruct (flag =? IOCP_INITSTATE_INIT) eqn:Hinit.
  - apply Z.eqb_eq in Hinit. subst flag.
    change (IOCP_INITSTATE_IN_PROGRESS =? IOCP_INITSTATE_DONE) with false.
    change (IOCP_INITSTATE_IN_PROGRESS =? IOCP_INITSTATE_IN_PROGRESS) with true.
    change (IOCP_INITSTATE_INIT =? IOCP_INITSTATE_DONE) with false.
    change (IOCP_INITSTATE_INIT =? IOCP_INITSTATE_IN_PROGRESS) with false.
    change (IOCP_INITSTATE_INIT =? IOCP_INITSTATE_INIT) with true.
    cbv iota beta.
    destruct (once_fn clientdata) as [code w'].
    destruct (Z.eqb_spec code TCL_OK) as [Hc|Hc]; cbn.
    + intros _. right. split; [exact Hc|reflexivity].
    + intros H. discriminate H.
  - cbv iota beta. destruct (flag =? IOCP_INITSTATE_DONE); [left; reflexivity|].
    destruct (flag =? IOCP_INITSTATE_IN_PROGRESS).
    + destruct (wait_loop polls) as [[[c|u]|m| |] seen]; left; reflexivity.
    + left; reflexivity.
Qed.

Lemma Iocp_DoOnce_ok_interp
    (polls : list Z) (flag : Z) (os : os_answers)
    (report : Tcl_Interp -> Tcl_Interp) (interp : Tcl_Interp) (p : process) :
  once_code (Iocp_DoOnce polls flag (IocpProcessInit os report) (interp, p))
    = Returns TCL_OK ->
  fst (once_world (Iocp_DoOnce polls flag (IocpProcessInit os report)
                     (interp, p))) = interp.
Proof.
  intros H. destruct (Iocp_DoOnce_ok_world _ _ _ _ _ H) as [->|[Hok ->]].
  - reflexivity.
  - apply IocpProcessInit_ok_interp. exact Hok.
Qed.

Lemma IocpThreadInit_code (th : Tsd.thread) (code : IocpResultCode)
    (th' : Tsd.thread) :
  Tsd.IocpThreadInit th = Returns (code, th') -> code = TCL_OK.
Proof.
  unfold Tsd.IocpThreadInit. destruct (Tsd.tsdSlot th); cbn; intros H.
  - injection H as <- _. reflexivity.
  - discriminate H.
Qed.

(** C10 (as amended): [Iocp_Init] never returns TCL_OK; when the one-time
    process initialization yields TCL_OK, the call returns TCL_ERROR,
    registers no command, and sets the result to the message "Unable to
    do thread initialization for <package>." if the result of the
    interpreter is empty (a result that is not empty is kept). *)
Theorem Iocp_Init_never_ok (e : init_env) (w : world) :
  Iocp_Init_amended e w.
Proof.
  unfold Iocp_Init_amended. split.
  - intros w'. unfold Iocp_Init.
    destruct (USE_TCL_STUBS e && negb (Tcl_InitStubs e));
      [intros H; discriminate H|].
    destruct (Iocp_DoOnce _ _ _ _) as [[code|m| |] st [i p] tr]; cbn;
      try (intros H; discriminate H).
    destruct (code =? TCL_OK); cbn; [|intros H; discriminate H].
    destruct (Tsd.IocpThreadInit (thread_ w)) as [[tcode th]|m| |] eqn:Hth;
      try (intros H; discriminate H).
    apply IocpThreadInit_code in Hth. subst tcode. cbn.
    intros H; discriminate H.
  - intros (Hstubs & Honce & Hslot). unfold Iocp_Init. rewrite Hstubs.
    pose proof (Iocp_DoOnce_ok_interp _ _ _ _ _ _ Honce) as Hint.
    destruct (Iocp_DoOnce _ _ _ _) as [oc st [i p] tr]; cbn in *.
    subst oc i. cbn.
    unfold Tsd.IocpThreadInit.
    destruct (Tsd.tsdSlot (thread_ w)) as [slot|]; [|contradiction].
    cbn. eexists. split; [reflexivity|]. cbn. unfold set_if_empty.
    destruct (Tcl_GetCharLength (objResult (interp_ w)) =? 0);
      split; reflexivity.
Qed.

Lemma later_reaches (result : string) :
  reaches_thread_init later_env (later_world result).
Proof.
  split; [reflexivity|]. split; [reflexivity|]. discriminate.
Defined.

Lemma Iocp_Init_never_ok_witness :
  reaches_thread_init later_env (later_world "") /\
  exists w',
    Iocp_Init later_env (later_world "") = Returns (TCL_ERROR, w') /\
    objResult (interp_ w') = "Unable to do thread initialization for iocp."%string /\
    commands (interp_ w') = [].
Proof.
  split; [exact (later_reaches "")|].
  exact (proj2 (Iocp_Init_never_ok later_env (later_world ""))
           (later_reaches "")).
Defined.

(** C10 as stated fails when the interpreter already holds a result: the
    call returns TCL_ERROR and the result stays what it was. *)
Lemma Iocp_Init_keeps_result :
  Iocp_Init later_env (later_world "busy")
    = Returns (TCL_ERROR, later_world "busy") /\
  ~ Iocp_Init_claim later_env (later_world "busy").
Proof.
  split; [vm_compute; reflexivity|].
  intros [_ H]. destruct (H (later_reaches "busy")) as (w' & Hr & Hres & _).
  vm_compute in Hr. injection Hr as <-. vm_compute in Hres.
  discriminate Hres.
Qed.

(** * Further properties of [src/win/iocp.c] *)

(** ** Buffers *)

Lemma move_keeps_storage (b b' : IocpDataBuffer) (out out' : list byte)
    (m k : Z) :
  IocpDataBufferMove b out m = Some (k, b', out') ->
  dataPtr b' = dataPtr b /\ capacity b' = capacity b.
Proof.
  unfold IocpDataBufferMove.
  destruct (match dataPtr b with
            | Some storage => memcpy out storage (begin b)
                                (if len b >? m then m else len b)
            | None => Some out
            end) as [o|]; intros H; [|discriminate H].
  injection H as _ <- _. split; reflexivity.
Qed.

Lemma last_shift (A : Type) (l : list A) :
  forall x d : A, last (x :: l) d = last l x.
Proof.
  induction l as [|y l IH]; intros x d; [reflexivity|].
  change (last (x :: y :: l) d) with (last (y :: l) d).
  rewrite (IH y d), (IH y x). reflexivity.
Qed.

Lemma moves_keep_storage (reqs : list (list byte * Z)) :
  forall (b : IocpDataBuffer) (tr : list (Z * IocpDataBuffer)),
    moves b reqs = Some tr ->
    dataPtr (last (map snd tr) b) = dataPtr b.
Proof.
  induction reqs as [|[out m] rest IH]; intros b tr H; cbn [moves] in H.
  - injection H as <-. reflexivity.
  - destruct (IocpDataBufferMove b out m) as [[[k b'] o]|] eqn:Hm;
      [|discriminate H].
    destruct (moves b' rest) as [tl|] eqn:Htl; [|discriminate H].
    injection H as <-. cbn [map snd].
    destruct (move_keeps_storage _ _ _ _ _ _ Hm) as [Hd _].
    rewrite last_shift, (IH b' tl Htl). exact Hd.
Qed.

(** X1: [IocpDataBufferInit], any run of moves that is defined, then
    [IocpDataBufferFini]: the storage is released exactly when
    [IocpDataBufferInit] returned a storage pointer; with capacity 0 or a
    refused allocation nothing was obtained and nothing is released. *)
Theorem DataBuffer_init_fini_balanced
    (attemptckalloc : Z -> option (list byte)) (capacity : Z)
    (reqs : list (list byte * Z)) (tr : list (Z * IocpDataBuffer)) :
  let storage := fst (IocpDataBufferInit attemptckalloc capacity) in
  let b0 := snd (IocpDataBufferInit attemptckalloc capacity) in
  moves b0 reqs = Some tr ->
  IocpDataBufferFini (last (map snd tr) b0)
    = match storage with Some _ => [EvFree] | None => [] end /\
  (capacity = 0 -> storage = None).
Proof.
  intros storage b0 H. subst storage b0.
  unfold IocpDataBufferFini. rewrite (moves_keep_storage _ _ _ H).
  unfold IocpDataBufferInit.
  destruct (Z.eqb_spec capacity 0) as [Hz|Hz]; cbn [negb].
  - cbn. split; auto.
  - destruct (attemptckalloc (CInt.to_uint capacity)); cbn.
    + split; [reflexivity|intros H0; contradiction].
    + split; auto.
Qed.

Lemma DataBuffer_init_fini_balanced_witness :
  moves (snd (IocpDataBufferInit big_heap 4)) [([x00], 3)]
    = Some [(0, mkDataBuffer (Some [x00; x00; x00; x00]) 4 0 0)] /\
  IocpDataBufferFini
    (last (map snd [(0, mkDataBuffer (Some [x00; x00; x00; x00]) 4 0 0)])
          (snd (IocpDataBufferInit big_heap 4))) = [EvFree].
Proof.
  split; [reflexivity|].
  exact (proj1 (DataBuffer_init_fini_balanced big_heap 4 [([x00], 3)]
                  [(0, mkDataBuffer (Some [x00; x00; x00; x00]) 4 0 0)]
                  eq_refl)).
Defined.

(** X2: [IocpBufferNew] returns a buffer exactly when the structure is
    allocated, the capacity is not 0 and the storage is allocated; the
    buffer then has the requested capacity, an empty window at offset 0
    and a zeroed operation part. In every other case it returns NULL, and
    the structure, if it was allocated, is freed again. A capacity of 0 is
    always refused. *)
Theorem IocpBufferNew_spec (sizeof_u : nat) (structPtr : option (list byte))
    (attemptckalloc : Z -> option (list byte)) (capacity : Z) :
  let r := IocpBufferNew sizeof_u structPtr attemptckalloc capacity in
  (forall raw storage,
     structPtr = Some raw -> capacity <> 0 ->
     attemptckalloc (CInt.to_uint capacity) = Some storage ->
     r = (Some (mkBuffer (repeat x00 sizeof_u)
                  (mkDataBuffer (Some storage) capacity 0 0)), [])) /\
  (structPtr = None -> r = (None, [])) /\
  (forall raw, structPtr = Some raw ->
     capacity = 0 \/ attemptckalloc (CInt.to_uint capacity) = None ->
     r = (None, [EvFree])) /\
  (fst r <> None ->
     structPtr <> None /\ capacity <> 0 /\
     attemptckalloc (CInt.to_uint capacity) <> None).
Proof.
  intros r. subst r. unfold IocpBufferNew, IocpDataBufferInit.
  split; [|split; [|split]].
  - intros raw storage -> Hc Ha.
    destruct (Z.eqb_spec capacity 0); [contradiction|]. cbn [negb].
    rewrite Ha. reflexivity.
  - intros ->. reflexivity.
  - intros raw -> [Hc|Ha].
    + subst capacity. reflexivity.
    + destruct (Z.eqb_spec capacity 0); cbn [negb]; [reflexivity|].
      rewrite Ha. reflexivity.
  - destruct structPtr as [raw|]; [|intros H; contradiction].
    destruct (Z.eqb_spec capacity 0) as [Hz|Hz]; cbn [negb].
    + intros H; contradiction.
    + destruct (attemptckalloc (CInt.to_uint capacity)); cbn.
      * intros _. repeat split; try discriminate. exact Hz.
      * intros H; contradiction.
Qed.

Lemma IocpBufferNew_spec_witness :
  IocpBufferNew 2 (Some [x01; x02]) big_heap 3
    = (Some (mkBuffer [x00; x00]
               (mkDataBuffer (Some [x00; x00; x00]) 3 0 0)), []) /\
  IocpBufferNew 2 (Some [x01; x02]) big_heap 0 = (None, [EvFree]) /\
  IocpBufferNew 2 None big_heap 3 = (None, []).
Proof.
  split; [|split].
  - refine (proj1 (IocpBufferNew_spec 2 (Some [x01; x02]) big_heap 3)
              [x01; x02] [x00; x00; x00] eq_refl _ eq_refl).
    discriminate.
  - exact (proj1 (proj2 (proj2
             (IocpBufferNew_spec 2 (Some [x01; x02]) big_heap 0)))
             [x01; x02] eq_refl (or_introl eq_refl)).
  - exact (proj1 (proj2 (IocpBufferNew_spec 2 None big_heap 3)) eq_refl).
Defined.

Lemma firstn_plus (A : Type) (a b : nat) :
  forall l : list A, firstn (a + b) l = firstn a l ++ firstn b (skipn a l).
Proof.
  induction a as [|a IH]; intros l; [reflexivity|].
  destruct l as [|x l]; cbn.
  - rewrite firstn_nil. reflexivity.
  - rewrite IH. reflexivity.
Qed.

Lemma skipn_plus (A : Type) (a b : nat) :
  forall l : list A, skipn (a + b) l = skipn b (skipn a l).
Proof.
  induction a as [|a IH]; intros l; [reflexivity|].
  destruct l as [|x l]; cbn.
  - rewrite skipn_nil. reflexivity.
  - apply IH.
Qed.

(** What a defined move on a buffer satisfying [DataBufferInv] returns:
    the count, the buffer, and the bytes that arrived. *)
Lemma move_result (b b' : IocpDataBuffer) (out o : list byte) (m k : Z) :
  DataBufferInv b -> 0 <= m ->
  IocpDataBufferMove b out m = Some (k, b', o) ->
  k = Z.min (len b) m /\
  b' = mkDataBuffer (dataPtr b) (capacity b) (begin b + k) (len b - k) /\
  DataBufferInv b' /\
  (forall storage, dataPtr b = Some storage ->
     firstn (Z.to_nat k) o
     = firstn (Z.to_nat k) (skipn (Z.to_nat (begin b)) storage)).
Proof.
  intros (Hb & Hl & Hc & Hmax & Hz & Hs) Hm. unfold IocpDataBufferMove.
  rewrite numCopied_min. set (n := Z.min (len b) m).
  assert (Hn : 0 <= n <= len b) by (subst n; lia).
  unfold CInt.add, CInt.sub.
  rewrite !wrap_id
    by (unfold CInt.in_int, CInt.INT_MIN, CInt.INT_MAX in *; lia).
  assert (Hinv : DataBufferInv
                   (mkDataBuffer (dataPtr b) (capacity b) (begin b + n)
                      (len b - n))).
  { unfold DataBufferInv, CInt.INT_MAX in *; cbn.
    repeat (split; [lia|]). split; assumption. }
  destruct (dataPtr b) as [storage|] eqn:Hd.
  - unfold memcpy.
    rewrite (to_size_t_id n) by (unfold CInt.INT_MAX in *; lia).
    destruct ((0 <=? begin b)
              && (begin b + n <=? Z.of_nat (List.length storage))
              && (n <=? Z.of_nat (List.length out))) eqn:Hok;
      intros H; [|discriminate H].
    injection H as <- <- <-.
    apply andb_prop in Hok. destruct Hok as [Hok Hdst].
    apply andb_prop in Hok. destruct Hok as [_ Hsrc].
    apply Z.leb_le in Hsrc.
    split; [reflexivity|]. split; [reflexivity|]. split; [exact Hinv|].
    intros s' Hs'. injection Hs' as <-.
    rewrite firstn_app, firstn_firstn, Nat.min_id.
    rewrite length_firstn, length_skipn.
    replace (Z.to_nat n
             - Nat.min (Z.to_nat n)
                 (List.length storage - Z.to_nat (begin b)))%nat
      with 0%nat by lia.
    cbn. apply app_nil_r.
  - intros H. injection H as <- <- <-.
    split; [reflexivity|]. split; [reflexivity|]. split; [exact Hinv|].
    intros s' Hs'. discriminate Hs'.
Qed.

(** X3: on a buffer satisfying its invariant, a move of [m1] followed by
    a move of [m2] returns in total what a single move of [m1 + m2]
    returns, leaves the buffer in the same state, and delivers the same
    bytes in the same order. *)
Theorem IocpDataBufferMove_in_pieces
    (b b1 b2 b' : IocpDataBuffer) (out1 out2 out o1 o2 o : list byte)
    (m1 m2 k1 k2 k : Z) :
  DataBufferInv b -> 0 <= m1 -> 0 <= m2 ->
  IocpDataBufferMove b out1 m1 = Some (k1, b1, o1) ->
  IocpDataBufferMove b1 out2 m2 = Some (k2, b2, o2) ->
  IocpDataBufferMove b out (m1 + m2) = Some (k, b', o) ->
  k = k1 + k2 /\ b' = b2 /\
  (dataPtr b <> None ->
   firstn (Z.to_nat k) o
   = firstn (Z.to_nat k1) o1 ++ firstn (Z.to_nat k2) o2).
Proof.
  intros Hinv Hm1 Hm2 H1 H2 H.
  destruct (move_result _ _ _ _ _ _ Hinv Hm1 H1) as (Hk1 & Hb1 & Hinv1 & Hc1).
  destruct (move_result _ _ _ _ _ _ Hinv1 Hm2 H2) as (Hk2 & Hb2 & _ & Hc2).
  assert (Hm : 0 <= m1 + m2) by lia.
  destruct (move_result _ _ _ _ _ _ Hinv Hm H) as (Hk & Hb' & _ & Hc).
  destruct Hinv as (Hbg & Hl & _).
  assert (Hlen1 : len b1 = len b - k1) by (rewrite Hb1; reflexivity).
  assert (Hsum : k = k1 + k2) by lia.
  split; [exact Hsum|]. split.
  - rewrite Hb', Hb2, Hb1; cbn. f_equal; lia.
  - intros Hd. destruct (dataPtr b) as [storage|] eqn:Hs; [|contradiction].
    assert (Hs1 : dataPtr b1 = Some storage) by (rewrite Hb1; reflexivity).
    rewrite (Hc storage eq_refl), (Hc1 storage eq_refl), (Hc2 storage Hs1).
    assert (Hbeg1 : begin b1 = begin b + k1) by (rewrite Hb1; reflexivity).
    rewrite Hbeg1, Hsum.
    replace (Z.to_nat (k1 + k2)) with (Z.to_nat k1 + Z.to_nat k2)%nat by lia.
    replace (Z.to_nat (begin b + k1))
      with (Z.to_nat (begin b) + Z.to_nat k1)%nat by lia.
    rewrite firstn_plus, skipn_plus. reflexivity.
Qed.

Lemma IocpDataBufferMove_in_pieces_witness :
  let b1 := mkDataBuffer (Some [x01; x02; x03; x04]) 4 2 1 in
  let b2 := mkDataBuffer (Some [x01; x02; x03; x04]) 4 3 0 in
  IocpDataBufferMove sample_buffer [x00] 1 = Some (1, b1, [x02]) /\
  IocpDataBufferMove b1 [x00; x00] 5 = Some (1, b2, [x03; x00]) /\
  IocpDataBufferMove sample_buffer [x00; x00; x00] 6
    = Some (2, b2, [x02; x03; x00]) /\
  (2 = 1 + 1 /\ b2 = b2 /\
   (dataPtr sample_buffer <> None ->
    firstn (Z.to_nat 2) [x02; x03; x00]
    = firstn (Z.to_nat 1) [x02] ++ firstn (Z.to_nat 1) [x03; x00])).
Proof.
  intros b1 b2.
  split; [reflexivity|]. split; [reflexivity|]. split; [reflexivity|].
  refine (IocpDataBufferMove_in_pieces sample_buffer b1 b2 b2
            [x00] [x00; x00] [x00; x00; x00] [x02] [x03; x00] [x02; x03; x00]
            1 5 1 1 2 sample_buffer_inv _ _ eq_refl eq_refl eq_refl); lia.
Defined.

(** ** Channel *)

(** X4: a channel out of [IocpChannelNew] has one reference, is linked
    nowhere and has an initialised lock; the [initialize] hook ran if the
    vtable has one. Locked and released once, with no reference taken in
    between, it is destroyed: the [finalize] hook runs if the vtable has
    one, then the lock is released and deleted and the storage freed. *)
Theorem IocpChannelNew_then_drop
    (garbage : Z) (vtblPtr : Channel.IocpChannelVtbl) :
  let c := fst (Channel.IocpChannelNew garbage vtblPtr) in
  Channel.numRefs c = 1 /\ Channel.linked c = false /\
  Channel.lock c = LockFree /\ Channel.vtblPtr c = vtblPtr /\
  snd (Channel.IocpChannelNew garbage vtblPtr)
    = (if Channel.initialize vtblPtr then [EvInitialize] else []) /\
  Channel.IocpChannelDrop (Channel.IocpChannelLock c)
    = Returns (None,
               (if Channel.finalize vtblPtr then [EvFinalize] else [])
               ++ [EvUnlock; EvLockDelete; EvFree]).
Proof.
  cbn. repeat split; reflexivity.
Qed.

Lemma set_then_test (f m : Z) : Z.land (Z.lor f m) m = m.
Proof.
  apply Z.bits_inj'. intros i _. rewrite Z.land_spec, Z.lor_spec.
  destruct (Z.testbit f i), (Z.testbit m i); reflexivity.
Qed.

Lemma set_then_clear (f m : Z) :
  Z.land (Z.lor f m) (Z.lnot m) = Z.land f (Z.lnot m).
Proof.
  apply Z.bits_inj'. intros i Hi.
  rewrite !Z.land_spec, Z.lor_spec, Z.lnot_spec by exact Hi.
  destruct (Z.testbit f i), (Z.testbit m i); reflexivity.
Qed.

Lemma clear_then_test (f m : Z) : Z.land (Z.land f (Z.lnot m)) m = 0.
Proof.
  apply Z.bits_inj'. intros i Hi.
  rewrite !Z.land_spec, Z.lnot_spec, Z.bits_0 by exact Hi.
  destruct (Z.testbit f i), (Z.testbit m i); reflexivity.
Qed.

(** X5: a wake that follows [IocpChannelAwaitCompletion] signals the
    condition variable once and clears the flag the wait had set, leaving
    the other flag bits as they were before the wait (for a flag constant
    that is not 0); and whatever the channel, a second wake right after a
    wake signals nothing and changes nothing. *)
Theorem IocpChannel_await_wake
    (IOCP_CHAN_F_BLOCKED_FOR_IO : Z) (c : Channel.IocpChannel) :
  (IOCP_CHAN_F_BLOCKED_FOR_IO <> 0 ->
   Channel.IocpChannelWakeAfterCompletion IOCP_CHAN_F_BLOCKED_FOR_IO
     (IocpChannelAwaitCompletion IOCP_CHAN_F_BLOCKED_FOR_IO c)
   = (Channel.mkChannel (Channel.inputBuffers c) (Channel.readyLink c)
        (Channel.tsdPtr c) (Channel.lock c) (Channel.numRefs c)
        (Channel.vtblPtr c)
        (Z.land (Channel.flags c) (Z.lnot IOCP_CHAN_F_BLOCKED_FOR_IO)),
      [EvWake])) /\
  (let woken := fst (Channel.IocpChannelWakeAfterCompletion
                       IOCP_CHAN_F_BLOCKED_FOR_IO c) in
   Channel.IocpChannelWakeAfterCompletion IOCP_CHAN_F_BLOCKED_FOR_IO woken
   = (woken, [])).
Proof.
  split.
  - intros HF.
    unfold Channel.IocpChannelWakeAfterCompletion, IocpChannelAwaitCompletion.
    cbn [Channel.flags Channel.inputBuffers Channel.readyLink Channel.tsdPtr
         Channel.lock Channel.numRefs Channel.vtblPtr].
    rewrite set_then_test, set_then_clear.
    destruct (Z.eqb_spec IOCP_CHAN_F_BLOCKED_FOR_IO 0); [contradiction|].
    reflexivity.
  - unfold Channel.IocpChannelWakeAfterCompletion.
    destruct (Z.eqb_spec (Z.land (Channel.flags c) IOCP_CHAN_F_BLOCKED_FOR_IO) 0)
      as [Hz|Hnz]; cbn [negb fst Channel.flags].
    + rewrite Hz. reflexivity.
    + rewrite clear_then_test. reflexivity.
Qed.

Lemma IocpChannel_await_wake_witness :
  Channel.IocpChannelWakeAfterCompletion 1
    (IocpChannelAwaitCompletion 1 idle_channel) = (idle_channel, [EvWake]).
Proof.
  refine (proj1 (IocpChannel_await_wake 1 idle_channel) _). discriminate.
Defined.

(** ** One-time initialization *)

(** After a call on a gate that is not "in-progress", a further call,
    with whatever function, returns the same code and changes nothing. *)
Lemma Iocp_DoOnce_again (W : Type) (polls polls' : list Z) (stateP : Z)
    (once_fn once_fn' : W -> IocpResultCode * W) (clientdata : W) :
  stateP <> IOCP_INITSTATE_IN_PROGRESS ->
  let r := Iocp_DoOnce polls stateP once_fn clientdata in
  Iocp_DoOnce polls' (once_state r) once_fn' (once_world r)
  = mkOnce (once_code r) (once_state r) (once_world r) [].
Proof.
  intros Hs r. subst r. unfold Iocp_DoOnce at 2 3 4 5 6.
  unfold InterlockedCompareExchange.
  destruct (Z.eqb_spec stateP IOCP_INITSTATE_INIT) as [->|Hinit].
  - cbn. destruct (once_fn clientdata) as [code w].
    destruct (code =? TCL_OK); reflexivity.
  - destruct (Z.eqb_spec stateP IOCP_INITSTATE_DONE) as [->|Hdone];
      [reflexivity|].
    destruct (Z.eqb_spec stateP IOCP_INITSTATE_IN_PROGRESS); [contradiction|].
    cbn [once_state once_world once_code].
    unfold Iocp_DoOnce, InterlockedCompareExchange.
    destruct (Z.eqb_spec stateP IOCP_INITSTATE_INIT); [contradiction|].
    destruct (Z.eqb_spec stateP IOCP_INITSTATE_DONE); [contradiction|].
    destruct (Z.eqb_spec stateP IOCP_INITSTATE_IN_PROGRESS); [contradiction|].
    reflexivity.
Qed.

(** X6: a call of [Iocp_DoOnce] on a gate that is not "in-progress" leaves
    a gate on which every later call returns the same code without
    calling [once_fn] and without touching gate or client state: the
    function runs at most once and its outcome sticks. *)
Theorem Iocp_DoOnce_sticky (W : Type) (polls polls' : list Z) (stateP : Z)
    (once_fn : W -> IocpResultCode * W) (clientdata : W) :
  stateP <> IOCP_INITSTATE_IN_PROGRESS ->
  let r := Iocp_DoOnce polls stateP once_fn clientdata in
  Iocp_DoOnce polls' (once_state r) once_fn (once_world r)
  = mkOnce (once_code r) (once_state r) (once_world r) [].
Proof.
  intros Hs. exact (Iocp_DoOnce_again W polls polls' stateP once_fn once_fn
                      clientdata Hs).
Qed.

Lemma Iocp_DoOnce_sticky_witness :
  IOCP_INITSTATE_INIT <> IOCP_INITSTATE_IN_PROGRESS /\
  Iocp_DoOnce [] IOCP_INITSTATE_ERROR count_fail 1%nat
  = mkOnce (Returns TCL_ERROR) IOCP_INITSTATE_ERROR 1%nat [].
Proof.
  assert (H : IOCP_INITSTATE_INIT <> IOCP_INITSTATE_IN_PROGRESS)
    by discriminate.
  split; [exact H|].
  exact (Iocp_DoOnce_sticky nat [] [] IOCP_INITSTATE_INIT count_fail O H).
Defined.

Lemma wait_loop_all_in_progress (n : nat) :
  wait_loop (repeat IOCP_INITSTATE_IN_PROGRESS n) = (Spinning, None).
Proof.
  rewrite <- (app_nil_r (repeat _ n)), wait_loop_in_progress. reflexivity.
Qed.

(** X7: a caller that finds the gate "in-progress" never calls [once_fn]
    and never writes the gate or the client state; it is still waiting as
    long as every poll reads "in-progress", and the first poll that reads
    something else decides: TCL_OK for "done", TCL_ERROR for anything
    else. *)
Theorem Iocp_DoOnce_in_progress (W : Type) (n : nat) (s : Z) (rest : list Z)
    (polls : list Z) (once_fn : W -> IocpResultCode * W) (clientdata : W) :
  let wait := fun ps => Iocp_DoOnce ps IOCP_INITSTATE_IN_PROGRESS
                          once_fn clientdata in
  once_trace (wait polls) = [] /\ once_world (wait polls) = clientdata /\
  wait (repeat IOCP_INITSTATE_IN_PROGRESS n)
    = mkOnce Spinning IOCP_INITSTATE_IN_PROGRESS clientdata [] /\
  (s <> IOCP_INITSTATE_IN_PROGRESS ->
   wait (repeat IOCP_INITSTATE_IN_PROGRESS n ++ s :: rest)
   = mkOnce (Returns (if s =? IOCP_INITSTATE_DONE then TCL_OK else TCL_ERROR))
            s clientdata []).
Proof.
  intros wait. subst wait. cbv beta.
  split; [|split; [|split]].
  - unfold Iocp_DoOnce. cbn.
    destruct (wait_loop polls) as [[[c|u]|m| |] seen]; reflexivity.
  - unfold Iocp_DoOnce. cbn.
    destruct (wait_loop polls) as [[[c|u]|m| |] seen]; reflexivity.
  - unfold Iocp_DoOnce. cbn. rewrite wait_loop_all_in_progress. reflexivity.
  - intros Hs. unfold Iocp_DoOnce. cbn.
    rewrite wait_loop_in_progress. cbn.
    destruct (Z.eqb_spec s IOCP_INITSTATE_DONE) as [->|Hd]; [reflexivity|].
    destruct (Z.eqb_spec s IOCP_INITSTATE_IN_PROGRESS); [contradiction|].
    reflexivity.
Qed.

Lemma Iocp_DoOnce_in_progress_witness :
  Iocp_DoOnce [IOCP_INITSTATE_IN_PROGRESS; IOCP_INITSTATE_IN_PROGRESS;
               IOCP_INITSTATE_DONE]
              IOCP_INITSTATE_IN_PROGRESS count_ok O
  = mkOnce (Returns TCL_OK) IOCP_INITSTATE_DONE O [].
Proof.
  refine (proj2 (proj2 (proj2
            (Iocp_DoOnce_in_progress nat 2 IOCP_INITSTATE_DONE [] []
               count_ok O))) _).
  discriminate.
Defined.

(** ** Completion subsystem *)

(** X8: [IocpProcessInit] returns TCL_OK exactly when the operating
    system created the port, started Winsock and created the thread, and
    TCL_ERROR otherwise; on success both handles are recorded and open,
    Winsock is started once more, the exit handler is registered and the
    interpreter is untouched. *)
Theorem IocpProcessInit_success
    (os : os_answers) (report : Tcl_Interp -> Tcl_Interp)
    (interp : Tcl_Interp) (p : process) :
  let r := IocpProcessInit os report (interp, p) in
  (fst r = TCL_OK \/ fst r = TCL_ERROR) /\
  (fst r = TCL_OK <->
   exists h t, os = mkOs (Some h) 0 (Some t)) /\
  (forall h t, os = mkOs (Some h) 0 (Some t) ->
     r = (TCL_OK,
          (interp,
           mkProcess (mkSubSystem (Some h) (Some t))
                     (t :: h :: openHandles p) (winsockRefs p + 1)
                     ("IocpProcessExitHandler"%string :: exitHandlers p)))).
Proof.
  intros r. subst r. unfold IocpProcessInit.
  split; [|split].
  - destruct os as [[port|] wsa [thr|]]; cbn;
      destruct (wsa =? 0); cbn; auto.
  - destruct os as [[port|] wsa [thr|]]; cbn;
      destruct (Z.eqb_spec wsa 0) as [Hw|Hw]; cbn;
      (split; [intros H; try discriminate H
              |intros (h & t & H); try discriminate H]).
    + subst wsa. exists port, thr. reflexivity.
    + reflexivity.
    + injection H as _ Hx _. contradiction.
  - intros h t ->. reflexivity.
Qed.

Lemma IocpProcessInit_success_witness :
  IocpProcessInit os_serves report_last_error (fresh_interp, fresh_process)
  = (TCL_OK,
     (fresh_interp,
      mkProcess (mkSubSystem (Some 8) (Some 12)) [12; 8] 1
                ["IocpProcessExitHandler"%string])).
Proof.
  exact (proj2 (proj2 (IocpProcessInit_success os_serves report_last_error
                         fresh_interp fresh_process)) 8 12 eq_refl).
Defined.

(** X9: a successful [IocpProcessInit] followed by [IocpProcessCleanup]
    leaves no port and no thread recorded, the open handles and the
    Winsock start count as they were before the initialization; the
    dispatcher is sent the sentinel, and is terminated only when the wait
    for it timed out. *)
Theorem IocpProcessInit_then_cleanup
    (os : os_answers) (report : Tcl_Interp -> Tcl_Interp)
    (interp : Tcl_Interp) (p : process) (timed_out : bool)
    (log : list os_call) :
  fst (IocpProcessInit os report (interp, p)) = TCL_OK ->
  let p1 := snd (snd (IocpProcessInit os report (interp, p))) in
  let r := IocpProcessCleanup timed_out (p1, log) in
  fst r = TCL_OK /\
  iocpModuleState (fst (snd r)) = mkSubSystem None None /\
  openHandles (fst (snd r)) = openHandles p /\
  winsockRefs (fst (snd r)) = winsockRefs p /\
  snd (snd r)
  = (if timed_out then [Terminated (CreateThread os)] else [])
    ++ Posted (CreateIoCompletionPort os) :: log.
Proof.
  unfold IocpProcessInit, IocpProcessCleanup.
  destruct os as [[port|] wsa [thr|]]; cbn;
    destruct (Z.eqb_spec wsa 0) as [Hw|Hw]; cbn;
    intros Hcode; try discriminate Hcode.
  destruct timed_out; cbn; rewrite ?Z.eqb_refl, ?CloseHandle_head;
    repeat split; try reflexivity; lia.
Qed.

Lemma IocpProcessInit_then_cleanup_witness :
  fst (IocpProcessInit os_serves report_last_error
         (fresh_interp, fresh_process)) = TCL_OK /\
  (fst (IocpProcessCleanup true
          (mkProcess (mkSubSystem (Some 8) (Some 12)) [12; 8] 1
                     ["IocpProcessExitHandler"%string], [])) = TCL_OK /\
   iocpModuleState
     (fst (snd (IocpProcessCleanup true
                  (mkProcess (mkSubSystem (Some 8) (Some 12)) [12; 8] 1
                             ["IocpProcessExitHandler"%string], []))))
     = mkSubSystem None None /\
   openHandles
     (fst (snd (IocpProcessCleanup true
                  (mkProcess (mkSubSystem (Some 8) (Some 12)) [12; 8] 1
                             ["IocpProcessExitHandler"%string], []))))
     = [] /\
   winsockRefs
     (fst (snd (IocpProcessCleanup true
                  (mkProcess (mkSubSystem (Some 8) (Some 12)) [12; 8] 1
                             ["IocpProcessExitHandler"%string], []))))
     = 0 /\
   snd (snd (IocpProcessCleanup true
               (mkProcess (mkSubSystem (Some 8) (Some 12)) [12; 8] 1
                          ["IocpProcessExitHandler"%string], [])))
     = [Terminated (Some 12); Posted (Some 8)]).
Proof.
  split; [reflexivity|].
  exact (IocpProcessInit_then_cleanup os_serves report_last_error
           fresh_interp fresh_process true [] eq_refl).
Defined.

(** X10: the exit handler run on a gate that is "not-started" performs
    the cleanup once and leaves the gate "done"; run again, it performs
    nothing: handles are not closed twice and Winsock is not cleaned up
    twice. *)
Theorem IocpProcessExitHandler_once
    (polls polls' : list Z) (timed_out timed_out' : bool)
    (st : process * list os_call) :
  let r := IocpProcessExitHandler polls timed_out IOCP_INITSTATE_INIT st in
  once_world r = snd (IocpProcessCleanup timed_out st) /\
  once_state r = IOCP_INITSTATE_DONE /\
  IocpProcessExitHandler polls' timed_out' (once_state r) (once_world r)
  = mkOnce (Returns TCL_OK) IOCP_INITSTATE_DONE (once_world r) [].
Proof.
  intros r. subst r. unfold IocpProcessExitHandler.
  assert (Hrun : Iocp_DoOnce polls IOCP_INITSTATE_INIT
                   (IocpProcessCleanup timed_out) st
                 = mkOnce (Returns TCL_OK) IOCP_INITSTATE_DONE
                     (snd (IocpProcessCleanup timed_out st))
                     [GateSet IOCP_INITSTATE_IN_PROGRESS; OnceCall;
                      GateSet IOCP_INITSTATE_DONE]).
  { unfold Iocp_DoOnce. rewrite InterlockedCompareExchange_hit. cbn.
    destruct st as [p log]. reflexivity. }
  rewrite Hrun. cbn [once_world once_state].
  split; [reflexivity|]. split; [reflexivity|]. reflexivity.
Qed.

(** ** Thread dispatch table *)



(** X12: how [IocpThreadExitHandler] ends. Without a TSD in the slot it
    frees nothing. With a TSD that others still reference it empties the
    slot and leaves the TSD alive: thread identity cleared, one reference
    fewer, unlocked, queue untouched. With the last reference and an
    empty queue it frees the TSD. With the last reference and a queued
    channel it panics, before the event source is deleted. Where it
    returns, one event source with the procedures of this module is
    deleted. *)
Theorem IocpThreadExitHandler_spec (th : Tsd.thread) (t : Tsd.IocpTsd) :
  let gone := Tcl_DeleteEventSource "IocpEventSetup" "IocpEventCheck"
                (Tsd.eventSources th) in
  let after := fun slot => Tsd.mkThread slot (Tsd.thread_id th) gone
                             (Tsd.threadExitHandlers th) in
  (Tsd.tsdSlot th = None \/ Tsd.tsdSlot th = Some None ->
   IocpThreadExitHandler th = Returns (after (Tsd.tsdSlot th), None, [])) /\
  (Tsd.tsdSlot th = Some (Some t) ->
   (1 < Tsd.numRefs t <= CInt.INT_MAX ->
    IocpThreadExitHandler th
    = Returns (after (Some None),
               Some (Tsd.mkTsd (Tsd.readyChannels t) LockFree 0
                               (Tsd.numRefs t - 1)),
               [EvUnlock])) /\
   (CInt.INT_MIN < Tsd.numRefs t <= 1 ->
    headPtr (Tsd.readyChannels t) = None ->
    IocpThreadExitHandler th
    = Returns (after (Some None), None, [EvUnlock; EvFree])) /\
   (CInt.INT_MIN < Tsd.numRefs t <= 1 ->
    headPtr (Tsd.readyChannels t) <> None ->
    IocpThreadExitHandler th = Panics Tsd.panic_msg)).
Proof.
  intros gone after. subst gone after. unfold IocpThreadExitHandler.
  split.
  - intros [H|H]; rewrite H; reflexivity.
  - intros H. rewrite H. unfold Tsd.IocpTsdUnlinkThread, Tsd.IocpTsdDrop.
    cbn [Tsd.numRefs Tsd.readyChannels Tsd.lock Tsd.threadId].
    unfold CInt.sub.
    split; [|split]; intros Hr.
    + rewrite wrap_id
        by (unfold CInt.in_int, CInt.INT_MIN, CInt.INT_MAX in *; lia).
      destruct (Z.leb_spec (Tsd.numRefs t - 1) 0); [lia|]. reflexivity.
    + intros Hq. rewrite Hq.
      rewrite wrap_id
        by (unfold CInt.in_int, CInt.INT_MIN, CInt.INT_MAX in *; lia).
      destruct (Z.leb_spec (Tsd.numRefs t - 1) 0); [|lia]. reflexivity.
    + intros Hq.
      rewrite wrap_id
        by (unfold CInt.in_int, CInt.INT_MIN, CInt.INT_MAX in *; lia).
      destruct (Z.leb_spec (Tsd.numRefs t - 1) 0); [|lia].
      destruct (headPtr (Tsd.readyChannels t)); [reflexivity|contradiction].
Qed.

Lemma IocpThreadExitHandler_spec_witness :
  IocpThreadExitHandler (exiting_thread leaky_tsd) = Panics Tsd.panic_msg /\
  IocpThreadExitHandler (exiting_thread last_tsd)
  = Returns (Tsd.mkThread (Some None) 7 [] ["IocpThreadExitHandler"%string],
             None, [EvUnlock; EvFree]).
Proof.
  split.
  - refine (proj2 (proj2 (proj2 (IocpThreadExitHandler_spec
              (exiting_thread leaky_tsd) leaky_tsd) eq_refl)) _ _).
    + vm_compute. split; [reflexivity|discriminate].
    + discriminate.
  - refine (proj1 (proj2 (proj2 (IocpThreadExitHandler_spec
              (exiting_thread last_tsd) last_tsd) eq_refl)) _ eq_refl).
    vm_compute. split; [reflexivity|discriminate].
Defined.

(** ** Package initialization *)

(** The call that finds the gate "not-started", as one equation. *)
Lemma Iocp_DoOnce_from_init (W : Type) (polls : list Z)
    (once_fn : W -> IocpResultCode * W) (clientdata : W) :
  Iocp_DoOnce polls IOCP_INITSTATE_INIT once_fn clientdata
  = if fst (once_fn clientdata) =? TCL_OK
    then mkOnce (Returns TCL_OK) IOCP_INITSTATE_DONE
           (snd (once_fn clientdata))
           [GateSet IOCP_INITSTATE_IN_PROGRESS; OnceCall;
            GateSet IOCP_INITSTATE_DONE]
    else mkOnce (Returns TCL_ERROR) IOCP_INITSTATE_ERROR
           (snd (once_fn clientdata))
           [GateSet IOCP_INITSTATE_IN_PROGRESS; OnceCall;
            GateSet IOCP_INITSTATE_ERROR].
Proof.
  unfold Iocp_DoOnce. rewrite InterlockedCompareExchange_hit.
  change (IOCP_INITSTATE_INIT =? IOCP_INITSTATE_DONE) with false.
  change (IOCP_INITSTATE_INIT =? IOCP_INITSTATE_IN_PROGRESS) with false.
  change (IOCP_INITSTATE_INIT =? IOCP_INITSTATE_INIT) with true.
  cbv iota. destruct (once_fn clientdata) as [code w'].
  cbn [fst snd]. destruct (code =? TCL_OK); reflexivity.
Qed.

(** X13: a process initialization that failed is not tried again. When
    [Iocp_Init] finds the gate "not-started" and [IocpProcessInit] fails,
    it returns TCL_ERROR and leaves the gate "error"; and every
    [Iocp_Init] that finds the gate "error" returns TCL_ERROR without
    touching the process, the thread or the gate, whatever the operating
    system would answer now. *)
Theorem Iocp_Init_failure_sticks (e : init_env) (w : world) :
  (e.(USE_TCL_STUBS) && negb e.(Tcl_InitStubs) = false ->
   w.(iocpProcessInitFlag) = IOCP_INITSTATE_INIT ->
   fst (IocpProcessInit e.(os_) e.(Iocp_ReportLastError)
          (w.(interp_), w.(proc_))) <> TCL_OK ->
   exists w',
     Iocp_Init e w = Returns (TCL_ERROR, w') /\
     w'.(iocpProcessInitFlag) = IOCP_INITSTATE_ERROR) /\
  (w.(iocpProcessInitFlag) = IOCP_INITSTATE_ERROR ->
   exists w',
     Iocp_Init e w = Returns (TCL_ERROR, w') /\
     w'.(iocpProcessInitFlag) = IOCP_INITSTATE_ERROR /\
     w'.(proc_) = w.(proc_) /\ w'.(thread_) = w.(thread_) /\
     w'.(interp_).(commands) = w.(interp_).(commands)).
Proof.
  split.
  - intros Hstubs Hflag Hfail. unfold Iocp_Init. rewrite Hstubs, Hflag.
    rewrite Iocp_DoOnce_from_init.
    destruct (IocpProcessInit (os_ e) (Iocp_ReportLastError e)
                (interp_ w, proc_ w)) as [code [i p]].
    cbn [fst snd] in *.
    destruct (Z.eqb_spec code TCL_OK); [contradiction|]. cbn.
    eexists. split; reflexivity.
  - intros Hflag. unfold Iocp_Init. rewrite Hflag.
    destruct (USE_TCL_STUBS e && negb (Tcl_InitStubs e)).
    + exists w. repeat split; auto.
    + cbn. eexists. split; [reflexivity|]. cbn. unfold set_if_empty.
      destruct (Tcl_GetCharLength (objResult (interp_ w)) =? 0);
        repeat split; reflexivity.
Qed.

(** X14: when [Iocp_Init] finds the gate "not-started" and the operating
    system serves the port, Winsock and the thread, the call still returns
    TCL_ERROR, and the process stays initialized: the gate is "done", both
    handles are recorded and open, Winsock is started and the exit
    handler is registered. *)
Theorem Iocp_Init_keeps_process (e : init_env) (w : world) (h t : HANDLE) :
  e.(USE_TCL_STUBS) && negb e.(Tcl_InitStubs) = false ->
  w.(iocpProcessInitFlag) = IOCP_INITSTATE_INIT ->
  e.(os_) = mkOs (Some h) 0 (Some t) ->
  w.(thread_).(Tsd.tsdSlot) <> None ->
  Iocp_Init e w
  = Returns (TCL_ERROR,
             mkWorld IOCP_INITSTATE_DONE
               (set_if_empty w.(interp_) (thread_msg e.(PACKAGE_NAME)))
               (mkProcess (mkSubSystem (Some h) (Some t))
                          (t :: h :: openHandles w.(proc_))
                          (winsockRefs w.(proc_) + 1)
                          ("IocpProcessExitHandler"%string
                             :: exitHandlers w.(proc_)))
               w.(thread_)).
Proof.
  intros Hstubs Hflag Hos Hslot. unfold Iocp_Init.
  rewrite Hstubs, Hflag, Hos.
  unfold Tsd.IocpThreadInit.
  destruct (Tsd.tsdSlot (thread_ w)) as [slot|]; [|contradiction].
  reflexivity.
Qed.

Lemma Iocp_Init_keeps_process_witness :
  Iocp_Init first_env first_world
  = Returns (TCL_ERROR,
             mkWorld IOCP_INITSTATE_DONE
               (mkInterp "Unable to do thread initialization for iocp." [] [])
               (mkProcess (mkSubSystem (Some 8) (Some 12)) [12; 8] 1
                          ["IocpProcessExitHandler"%string])
               (Tsd.mkThread (Some None) 7 [] [])).
Proof.
  refine (Iocp_Init_keeps_process first_env first_world 8 12
            eq_refl eq_refl eq_refl _).
  discriminate.
Defined.

Lemma Iocp_Init_failure_sticks_witness :
  exists w',
    Iocp_Init failing_env first_world = Returns (TCL_ERROR, w') /\
    iocpProcessInitFlag w' = IOCP_INITSTATE_ERROR.
Proof.
  refine (proj1 (Iocp_Init_failure_sticks failing_env first_world)
            eq_refl eq_refl _).
  vm_compute. discriminate.
Defined.

(** * Properties of [src/win/tclPolyfill.c] *)

Section PolyfillFacts.

Import Polyfill.

Lemma ntohs_range (x : Z) : 0 <= ntohs x <= 65535.
Proof.
  unfold ntohs.
  pose proof (Z.mod_pos_bound x 256).
  pose proof (Z.mod_pos_bound (x / 256) 256). lia.
Qed.

(** X15: when [TclSockGetPort] returns TCL_OK the port stored is at most
    65535 and the interpreter is untouched. A string that is an integer
    is never looked up as a service: the integer itself is stored, and the
    code is TCL_OK exactly when it is at most 65535 (a negative integer is
    accepted). A string that is not an integer yields TCL_OK exactly when
    the service is known, with a port between 0 and 65535. *)
Theorem TclSockGetPort_spec (env : port_env) (interp : Tcl_Interp)
    (string_ proto : string) (port0 : Z) :
  let r := TclSockGetPort env interp string_ proto port0 in
  let code := fst (fst r) in
  let port := snd (fst r) in
  (code = TCL_OK -> port <= 65535 /\ snd r = interp) /\
  (forall v, env.(Tcl_GetInt) string_ = Some v ->
     port = v /\ (code = TCL_OK <-> v <= 65535) /\
     (code <> TCL_OK -> snd r = Tcl_SetResult interp port_too_high)) /\
  (env.(Tcl_GetInt) string_ = None ->
     (code = TCL_OK <->
      env.(getservbyname) (env.(toExternal) string_) proto <> None) /\
     (code = TCL_OK -> 0 <= port <= 65535) /\
     (code <> TCL_OK ->
      port = port0 /\
      snd r = Tcl_SetResult interp (env.(int_error) string_))).
Proof.
  intros r code port. subst r code port. unfold TclSockGetPort.
  destruct (Tcl_GetInt env string_) as [v|] eqn:Hint.
  - destruct (Z.gtb_spec v 65535) as [Hhi|Hlo]; cbn.
    + split; [intros H; discriminate H|]. split; [|intros H; discriminate H].
      intros v' Hv'. injection Hv' as <-.
      split; [reflexivity|]. split; [|reflexivity].
      split; [intros H; discriminate H|intros H; lia].
    + split; [intros _; split; [exact Hlo|reflexivity]|].
      split; [|intros H; discriminate H].
      intros v' Hv'. injection Hv' as <-.
      split; [reflexivity|]. split; [|intros H; contradiction].
      split; [intros _; exact Hlo|reflexivity].
  - destruct (getservbyname env (toExternal env string_) proto)
      as [s_port|]; cbn.
    + pose proof (ntohs_range (to_ushort s_port)) as Hr.
      split; [intros _; split; [lia|reflexivity]|].
      split; [intros v Hv; discriminate Hv|]. intros _.
      split; [split; [intros _; discriminate|reflexivity]|].
      split; [intros _; exact Hr|intros H; contradiction].
    + split; [intros H; discriminate H|].
      split; [intros v Hv; discriminate Hv|]. intros _.
      split; [split; [intros H; discriminate H|intros H; contradiction]|].
      split; [intros H; discriminate H|]. intros _. split; reflexivity.
Qed.

Lemma TclSockGetPort_spec_witness :
  Tcl_GetInt sample_ports "70000" = Some 70000 /\
  (snd (fst (TclSockGetPort sample_ports fresh_interp "70000" "tcp" 0))
     = 70000 /\
   (fst (fst (TclSockGetPort sample_ports fresh_interp "70000" "tcp" 0))
      = TCL_OK <-> 70000 <= 65535) /\
   (fst (fst (TclSockGetPort sample_ports fresh_interp "70000" "tcp" 0))
      <> TCL_OK ->
    snd (TclSockGetPort sample_ports fresh_interp "70000" "tcp" 0)
      = Tcl_SetResult fresh_interp port_too_high)).
Proof.
  split; [reflexivity|].
  exact (proj1 (proj2 (TclSockGetPort_spec sample_ports fresh_interp
                         "70000" "tcp" 0)) 70000 eq_refl).
Defined.

End PolyfillFacts.

(** ** Sorting the address list *)

Section SortFacts.

Import Polyfill.

Lemma set_next_other (m : store) (a x : nat) (v : option nat) :
  x <> a -> set_next m a v x = m x.
Proof.
  intros H. unfold set_next.
  destruct (Nat.eqb_spec x a); [contradiction|reflexivity].
Qed.

Lemma set_next_same (m : store) (a : nat) (v : option nat) :
  set_next m a v a = mkAddr (ai_family (m a)) v.
Proof. unfold set_next. rewrite Nat.eqb_refl. reflexivity. Qed.

Lemma set_next_family (m : store) (a x : nat) (v : option nat) :
  ai_family (set_next m a v x) = ai_family (m x).
Proof.
  unfold set_next. destruct (Nat.eqb_spec x a) as [->|]; reflexivity.
Qed.

Lemma lseg_ext (m m' : store) (l : list nat) :
  forall p q, (forall x, In x l -> m' x = m x) ->
              lseg m p l q -> lseg m' p l q.
Proof.
  induction l as [|a l IH]; intros p q Hext H; [exact H|].
  destruct H as [Hp Hl]. split; [exact Hp|].
  rewrite (Hext a) by (left; reflexivity).
  apply IH; [|exact Hl]. intros x Hx. apply Hext. right. exact Hx.
Qed.

Lemma lseg_app (m : store) (l1 l2 : list nat) :
  forall p q r, lseg m p l1 q -> lseg m q l2 r -> lseg m p (l1 ++ l2) r.
Proof.
  induction l1 as [|a l1 IH]; intros p q r H1 H2.
  - cbn in H1. subst p. exact H2.
  - destruct H1 as [Hp Hl]. split; [exact Hp|]. eapply IH; eassumption.
Qed.

Lemma lseg_head (m : store) (l : list nat) (p : option nat) (z : nat) :
  lseg m p l (Some z) -> exists h, p = Some h.
Proof.
  destruct l as [|a l]; cbn.
  - intros ->. exists z. reflexivity.
  - intros [-> _]. exists a. reflexivity.
Qed.

Lemma NoDup_apart (l1 l2 : list nat) (x : nat) :
  NoDup (l1 ++ l2) -> In x l1 -> In x l2 -> False.
Proof.
  induction l1 as [|a l1 IH]; intros Hnd H1 H2; [contradiction|].
  cbn in Hnd. apply NoDup_cons_iff in Hnd. destruct Hnd as [Ha Hnd].
  destruct H1 as [->|H1].
  - apply Ha. apply in_or_app. right. exact H2.
  - exact (IH Hnd H1 H2).
Qed.

Lemma open_chain_ext (m m' : store) (head ptr : option nat) (xs : list nat) :
  (forall x, In x xs -> m' x = m x) ->
  open_chain m head ptr xs -> open_chain m' head ptr xs.
Proof.
  intros Hext [[-> ->]|(xs0 & z & -> & Hp & Hl)].
  - left. split; reflexivity.
  - right. exists xs0, z. split; [reflexivity|]. split; [exact Hp|].
    apply (lseg_ext m); [|exact Hl].
    intros x Hx. apply Hext. apply in_or_app. left. exact Hx.
Qed.

(** Appending a node to a chain: the store through the tail pointer is
    defined, only the old tail is written, and the chain is one longer. *)
Lemma push_spec (m : store) (head ptr : option nat) (xs : list nat) (a : nat) :
  open_chain m head ptr xs -> NoDup (xs ++ [a]) ->
  exists m' head' ptr',
    push m head ptr a = Some (m', head', ptr') /\
    open_chain m' head' ptr' (xs ++ [a]) /\
    (forall x, ai_family (m' x) = ai_family (m x)) /\
    (forall x, ~ In x xs -> m' x = m x).
Proof.
  intros [[-> ->]|(xs0 & z & -> & -> & Hl)] Hnd.
  - exists m, (Some a), (Some a). cbn. split; [reflexivity|].
    split; [|split; intros; reflexivity].
    right. exists [], a. split; [reflexivity|]. split; reflexivity.
  - destruct (lseg_head _ _ _ _ Hl) as [h ->].
    exists (set_next m z (Some a)), (Some h), (Some a). cbn.
    split; [reflexivity|].
    assert (Hz : ~ In z xs0).
    { apply NoDup_app_remove_r in Hnd. apply NoDup_remove_2 in Hnd.
      rewrite app_nil_r in Hnd. exact Hnd. }
    split; [|split].
    + right. exists (xs0 ++ [z]), a. split; [reflexivity|].
      split; [reflexivity|].
      apply (lseg_app _ _ _ _ (Some z)).
      * apply (lseg_ext m); [|exact Hl].
        intros x Hx. apply set_next_other. intros ->. contradiction.
      * cbn. split; [reflexivity|]. rewrite set_next_same. reflexivity.
    + intros x. apply set_next_family.
    + intros x Hx. apply set_next_other. intros ->.
      apply Hx. apply in_or_app. right. left. reflexivity.
Qed.

Lemma sort_step_push (c : chains) (a : nat) :
  sort_step c a =
  if is_v4 (mem c) a then
    match push (mem c) (v4head c) (v4ptr c) a with
    | Some (m, h, p) => Some (mkChains m h p (v6head c) (v6ptr c))
    | None => None
    end
  else
    match push (mem c) (v6head c) (v6ptr c) a with
    | Some (m, h, p) => Some (mkChains m (v4head c) (v4ptr c) h p)
    | None => None
    end.
Proof.
  unfold sort_step, is_v4, push.
  destruct (ai_family (mem c a) =? AF_INET).
  - destruct (v4head c); [|reflexivity].
    destruct (store_next (mem c) (v4ptr c) (Some a)); reflexivity.
  - destruct (v6head c); [|reflexivity].
    destruct (store_next (mem c) (v6ptr c) (Some a)); reflexivity.
Qed.

Lemma filter_snoc (f : nat -> bool) (l : list nat) (a : nat) :
  filter f (l ++ [a]) = filter f l ++ (if f a then [a] else []).
Proof. rewrite filter_app. cbn. destruct (f a); reflexivity. Qed.

Lemma NoDup_snoc_filter (f : nat -> bool) (l : list nat) (a : nat) :
  NoDup l -> ~ In a l -> NoDup (filter f l ++ [a]).
Proof.
  intros Hnd Ha. apply NoDup_app.
  - apply NoDup_filter. exact Hnd.
  - constructor; [intros H; contradiction|constructor].
  - intros x Hx [<-|H]; [|contradiction].
    apply filter_In in Hx. apply Ha. exact (proj1 Hx).
Qed.

(** The loop, from any point of the list: with the nodes [done] behind it
    and the nodes [rest] ahead, it ends normally within [length rest]
    iterations and leaves the two chains holding the IPv4 nodes and the
    other nodes of the whole list, each in list order. *)
Lemma sort_loop_spec (m0 : store) (rest : list nat) :
  forall (done : list nat) (c : chains) (p : option nat) (fuel : nat),
    NoDup (done ++ rest) -> (List.length rest <= fuel)%nat ->
    (forall x, ai_family (mem c x) = ai_family (m0 x)) ->
    (forall x, ~ In x done -> mem c x = m0 x) ->
    open_chain (mem c) (v4head c) (v4ptr c) (filter (is_v4 m0) done) ->
    open_chain (mem c) (v6head c) (v6ptr c) (filter (not_v4 m0) done) ->
    lseg m0 p rest None ->
    exists c',
      sort_loop fuel c p = Done c' /\
      (forall x, ai_family (mem c' x) = ai_family (m0 x)) /\
      (forall x, ~ In x (done ++ rest) -> mem c' x = m0 x) /\
      open_chain (mem c') (v4head c') (v4ptr c')
                 (filter (is_v4 m0) (done ++ rest)) /\
      open_chain (mem c') (v6head c') (v6ptr c')
                 (filter (not_v4 m0) (done ++ rest)).
Proof.
  induction rest as [|a rest IH];
    intros done c p fuel Hnd Hfuel Hfam Hout H4 H6 Hseg.
  - cbn in Hseg. subst p. exists c. rewrite app_nil_r.
    destruct fuel; cbn; auto.
  - destruct Hseg as [-> Hseg].
    destruct fuel as [|fuel]; [cbn in Hfuel; lia|].
    cbn in Hfuel. cbn [sort_loop]. rewrite sort_step_push.
    assert (Ha : ~ In a done).
    { apply NoDup_remove_2 in Hnd. intros H. apply Hnd.
      apply in_or_app. left. exact H. }
    assert (Hnd0 : NoDup done) by (apply NoDup_app_remove_r in Hnd; exact Hnd).
    assert (Hnd' : NoDup ((done ++ [a]) ++ rest))
      by (rewrite <- app_assoc; exact Hnd).
    assert (Hv : is_v4 (mem c) a = is_v4 m0 a)
      by (unfold is_v4; rewrite Hfam; reflexivity).
    rewrite Hv.
    replace (done ++ a :: rest) with ((done ++ [a]) ++ rest)
      by (rewrite <- app_assoc; reflexivity).
    destruct (is_v4 m0 a) eqn:Hva.
    + destruct (push_spec _ _ _ _ a H4 (NoDup_snoc_filter _ _ _ Hnd0 Ha))
        as (m' & h' & p' & Hpush & Hch & Hfam' & Hout').
      rewrite Hpush. cbn [mem].
      assert (Hma : m' a = m0 a).
      { rewrite Hout', Hout; [reflexivity|exact Ha|].
        intros H. apply filter_In in H. apply Ha. exact (proj1 H). }
      rewrite Hma.
      apply (IH (done ++ [a])
                (mkChains m' h' p' (v6head c) (v6ptr c))); cbn;
        try assumption; try lia.
      * intros x. rewrite Hfam'. apply Hfam.
      * intros x Hx. rewrite Hout', Hout; [reflexivity| |].
        -- intros H. apply Hx. apply in_or_app. left. exact H.
        -- intros H. apply filter_In in H. apply Hx.
           apply in_or_app. left. exact (proj1 H).
      * rewrite filter_snoc, Hva. exact Hch.
      * rewrite filter_snoc. unfold not_v4 at 2. rewrite Hva. cbn.
        rewrite app_nil_r. apply (open_chain_ext (mem c)); [|exact H6].
        intros x Hx. apply Hout'. intros H.
        apply filter_In in Hx. apply filter_In in H.
        destruct Hx as [_ Hx]. destruct H as [_ H].
        unfold not_v4 in Hx. rewrite H in Hx. discriminate Hx.
    + destruct (push_spec _ _ _ _ a H6 (NoDup_snoc_filter _ _ _ Hnd0 Ha))
        as (m' & h' & p' & Hpush & Hch & Hfam' & Hout').
      rewrite Hpush. cbn [mem].
      assert (Hma : m' a = m0 a).
      { rewrite Hout', Hout; [reflexivity|exact Ha|].
        intros H. apply filter_In in H. apply Ha. exact (proj1 H). }
      rewrite Hma.
      apply (IH (done ++ [a])
                (mkChains m' (v4head c) (v4ptr c) h' p')); cbn;
        try assumption; try lia.
      * intros x. rewrite Hfam'. apply Hfam.
      * intros x Hx. rewrite Hout', Hout; [reflexivity| |].
        -- intros H. apply Hx. apply in_or_app. left. exact H.
        -- intros H. apply filter_In in H. apply Hx.
           apply in_or_app. left. exact (proj1 H).
      * rewrite filter_snoc, Hva. rewrite app_nil_r.
        apply (open_chain_ext (mem c)); [|exact H4].
        intros x Hx. apply Hout'. intros H.
        apply filter_In in Hx. apply filter_In in H.
        destruct Hx as [_ Hx]. destruct H as [_ H].
        unfold not_v4 in H. rewrite Hx in H. discriminate H.
      * rewrite filter_snoc. unfold not_v4 at 2. rewrite Hva. cbn.
        exact Hch.
Qed.

(** The statements after the loop turn the two chains into one list
    that ends in NULL: the first chain, then the second. *)
Lemma sort_join_spec (m : store) (h4 p4 h6 p6 : option nat)
    (xs ys : list nat) :
  open_chain m h4 p4 xs -> open_chain m h6 p6 ys -> NoDup (xs ++ ys) ->
  exists m' head,
    sort_join (mkChains m h4 p4 h6 p6) = Some (m', head) /\
    lseg m' head (xs ++ ys) None /\
    (forall x, ai_family (m' x) = ai_family (m x)) /\
    (forall x, ~ In x (xs ++ ys) -> m' x = m x).
Proof.
  intros H4 H6 Hnd. unfold sort_join. cbn [mem v4head v4ptr v6head v6ptr].
  assert (Hstage :
    exists m1 al,
      match h6 with
      | Some _ => match store_next m p6 None with
                  | Some m1 => Some (m1, h6)
                  | None => None
                  end
      | None => Some (m, @None nat)
      end = Some (m1, al) /\
      lseg m1 al ys None /\
      (forall x, ai_family (m1 x) = ai_family (m x)) /\
      (forall x, ~ In x ys -> m1 x = m x)).
  { destruct H6 as [[-> ->]|(ys0 & zy & -> & -> & Hl)].
    - exists m, None. repeat split; reflexivity.
    - destruct (lseg_head _ _ _ _ Hl) as [h ->].
      exists (set_next m zy None), (Some h). cbn.
      split; [reflexivity|].
      assert (Hz : ~ In zy ys0).
      { apply NoDup_app_remove_l in Hnd. apply NoDup_remove_2 in Hnd.
        rewrite app_nil_r in Hnd. exact Hnd. }
      split; [|split].
      + apply (lseg_app _ _ _ _ (Some zy)).
        * apply (lseg_ext m); [|exact Hl].
          intros x Hx. apply set_next_other. intros ->. contradiction.
        * cbn. split; [reflexivity|]. rewrite set_next_same. reflexivity.
      + intros x. apply set_next_family.
      + intros x Hx. apply set_next_other. intros ->.
        apply Hx. apply in_or_app. right. left. reflexivity. }
  destruct Hstage as (m1 & al & -> & Hys & Hfam1 & Hout1).
  destruct H4 as [[-> ->]|(xs0 & zx & -> & -> & Hl)].
  - exists m1, al. cbn. repeat split; auto.
  - destruct (lseg_head _ _ _ _ Hl) as [h ->].
    exists (set_next m1 zx al), (Some h). cbn.
    split; [reflexivity|].
    assert (Hzx : ~ In zx xs0).
    { apply NoDup_app_remove_r in Hnd. apply NoDup_remove_2 in Hnd.
      rewrite app_nil_r in Hnd. exact Hnd. }
    assert (Hzy : ~ In zx ys).
    { intros H. apply (NoDup_apart _ _ zx Hnd); [|exact H].
      apply in_or_app. right. left. reflexivity. }
    split; [|split].
    + apply (lseg_app _ _ _ _ al).
      * apply (lseg_app _ _ _ _ (Some zx)).
        -- apply (lseg_ext m); [|exact Hl].
           intros x Hx. rewrite set_next_other by (intros ->; contradiction).
           apply Hout1. intros H.
           apply (NoDup_apart _ _ x Hnd); [|exact H].
           apply in_or_app. left. exact Hx.
        -- cbn. split; [reflexivity|]. rewrite set_next_same. reflexivity.
      * apply (lseg_ext m1); [|exact Hys].
        intros x Hx. apply set_next_other. intros ->. contradiction.
    + intros x. rewrite set_next_family. apply Hfam1.
    + intros x Hx. rewrite set_next_other.
      * apply Hout1. intros H. apply Hx. apply in_or_app. right. exact H.
      * intros ->. apply Hx. apply in_or_app. left.
        apply in_or_app. right. left. reflexivity.
Qed.

Lemma lseg_split (m : store) (l1 l2 : list nat) :
  forall p q, lseg m p (l1 ++ l2) q ->
              exists r, lseg m p l1 r /\ lseg m r l2 q.
Proof.
  induction l1 as [|a l1 IH]; intros p q H.
  - exists p. split; [reflexivity|exact H].
  - destruct H as [-> H]. destruct (IH _ _ H) as (r & H1 & H2).
    exists r. split; [split; [reflexivity|exact H1]|exact H2].
Qed.

Lemma lseg_func (m : store) (l1 : list nat) :
  forall l2 p, lseg m p l1 None -> lseg m p l2 None -> l1 = l2.
Proof.
  induction l1 as [|a l1 IH]; intros [|b l2] p H1 H2; cbn in *.
  - reflexivity.
  - destruct H2 as [H2 _]. congruence.
  - destruct H1 as [H1 _]. congruence.
  - destruct H1 as [-> H1]. destruct H2 as [Hb H2].
    injection Hb as <-. f_equal. exact (IH _ _ H1 H2).
Qed.

(** A list that ends in NULL visits no node twice. *)
Lemma lseg_NoDup (m : store) (l : list nat) :
  forall p, lseg m p l None -> NoDup l.
Proof.
  induction l as [|a l IH]; intros p H; [constructor|].
  destruct H as [-> H]. constructor; [|exact (IH _ H)].
  intros Hin. apply in_split in Hin. destruct Hin as (l1 & l2 & Heq).
  pose proof H as H'. rewrite Heq in H'.
  destruct (lseg_split _ _ _ _ _ H') as (r & _ & [-> H2]).
  pose proof (lseg_func _ _ _ _ H2 H) as Hl.
  apply (f_equal (@List.length nat)) in Hl.
  rewrite Heq, length_app in Hl. cbn in Hl. lia.
Qed.

(** X16: when [getaddrinfo] succeeds with a list that ends in NULL and
    the address is to be bound, [TclCreateSocketAddress] returns 1 and
    leaves in [*addrlist] a list that ends in NULL and holds the IPv4
    nodes of the original list followed by its other nodes, each group in
    its original order: no node is lost or duplicated, no family is
    changed, and nodes outside the list are not written. When the
    address is not to be bound the list is returned as it came. *)
Theorem TclCreateSocketAddress_sorted (r : resolver) (fuel : nat)
    (socketAF host : option string) (port willBind : Z)
    (errorMsg0 : option string) (m : store) (head : option nat)
    (l : list nat) :
  r.(getaddrinfo) (native_of r host) (portstring_of r host port)
                  (hints_of socketAF willBind) = (0, (m, head)) ->
  lseg m head l None -> (List.length l <= fuel)%nat ->
  (willBind = 0 ->
   TclCreateSocketAddress r fuel socketAF host port willBind errorMsg0
   = Done (1, m, head, errorMsg0)) /\
  (willBind <> 0 ->
   exists m' head',
     TclCreateSocketAddress r fuel socketAF host port willBind errorMsg0
     = Done (1, m', head', errorMsg0) /\
     lseg m' head' (filter (is_v4 m) l ++ filter (not_v4 m) l) None /\
     (forall x, ai_family (m' x) = ai_family (m x)) /\
     (forall x, ~ In x l -> m' x = m x)).
Proof.
  intros Hga Hseg Hfuel. unfold TclCreateSocketAddress. rewrite Hga.
  cbn [negb Z.eqb]. split.
  - intros ->. reflexivity.
  - intros Hw. destruct (Z.eqb_spec willBind 0); [contradiction|].
    cbn [negb].
    pose proof (lseg_NoDup _ _ _ Hseg) as Hnd.
    destruct (sort_loop_spec m l [] (mkChains m None None None None)
                head fuel) as (c & Hloop & Hfam & Hout & H4 & H6);
      cbn; try assumption; try reflexivity; auto.
    + left. split; reflexivity.
    + left. split; reflexivity.
    + rewrite Hloop. cbn [app] in *.
      destruct c as [mc a4 b4 a6 b6]. cbn [mem v4head v4ptr v6head v6ptr] in *.
      destruct (sort_join_spec mc a4 b4 a6 b6 _ _ H4 H6)
        as (m' & head' & Hjoin & Hl & Hfam' & Hout').
      { apply NoDup_app.
        - apply NoDup_filter. exact Hnd.
        - apply NoDup_filter. exact Hnd.
        - intros x Hx Hy. apply filter_In in Hx. apply filter_In in Hy.
          destruct Hx as [_ Hx]. destruct Hy as [_ Hy].
          unfold not_v4 in Hy. rewrite Hx in Hy. discriminate Hy. }
      rewrite Hjoin. exists m', head'.
      split; [reflexivity|]. split; [exact Hl|]. split.
      * intros x. rewrite Hfam'. apply Hfam.
      * intros x Hx. rewrite Hout'; [apply Hout; exact Hx|].
        intros H. apply Hx. apply in_app_or in H.
        destruct H as [H|H]; apply filter_In in H; exact (proj1 H).
Qed.

Lemma TclCreateSocketAddress_sorted_witness :
  lseg sample_store (Some 1%nat) [1; 2; 3; 4]%nat None /\
  (List.length [1; 2; 3; 4]%nat <= 4)%nat /\ 1 <> 0 /\
  exists m' head',
    TclCreateSocketAddress sample_resolver 4 None (Some "localhost"%string)
      80 1 None
    = Done (1, m', head', None) /\
    lseg m' head' [2; 4; 1; 3]%nat None /\
    (forall x, ai_family (m' x) = ai_family (sample_store x)) /\
    (forall x, ~ In x [1; 2; 3; 4]%nat -> m' x = sample_store x).
Proof.
  assert (Hl : lseg sample_store (Some 1%nat) [1; 2; 3; 4]%nat None)
    by (cbn; repeat split; reflexivity).
  assert (Hf : (List.length [1; 2; 3; 4]%nat <= 4)%nat) by (cbn; lia).
  assert (Hw : 1 <> 0) by discriminate.
  split; [exact Hl|]. split; [exact Hf|]. split; [exact Hw|].
  exact (proj2 (TclCreateSocketAddress_sorted sample_resolver 4 None
                  (Some "localhost"%string) 80 1 None sample_store
                  (Some 1%nat) [1; 2; 3; 4]%nat eq_refl Hl Hf) Hw).
Defined.

End SortFacts.

(** * Further runs *)

(** X17: [n + 1] releases of a locked channel whose refcount is [n + 1]:
    the [k]-th of the first [n] leaves the channel with refcount
    [n + 1 - k] and every other field, the held lock included, as it was,
    and makes no call; the last one runs the finalize hook (if any), then
    unlocks, deletes the lock and frees the channel. *)
Theorem IocpChannelDrop_sequence (n : nat) :
  forall c : Channel.IocpChannel,
    Channel.numRefs c = Z.of_nat n + 1 -> Z.of_nat n + 1 <= CInt.INT_MAX ->
    Channel.drops (S n) c
    = map (fun k => (Some (Channel.with_refs c
                             (Channel.numRefs c - Z.of_nat k)),
                     @nil event))
          (seq 1 n)
      ++ [(None, Channel.final_events c)].
Proof.
  induction n as [|n IH]; intros c Hrefs Hmax.
  - rewrite drops_step.
    rewrite IocpChannelDrop_last
      by (unfold CInt.INT_MIN; rewrite Hrefs; cbn; lia).
    reflexivity.
  - rewrite drops_step.
    rewrite IocpChannelDrop_positive by lia.
    rewrite (IH (Channel.with_refs c (Channel.numRefs c - 1)))
      by (cbn [Channel.with_refs Channel.numRefs]; lia).
    cbn [seq map app].
    change (Z.of_nat 1) with 1. f_equal.
    rewrite <- (seq_shift n 1), map_map.
    f_equal. apply map_ext. intros k.
    unfold Channel.with_refs; cbn [Channel.numRefs Channel.inputBuffers
      Channel.readyLink Channel.tsdPtr Channel.lock Channel.vtblPtr
      Channel.flags].
    do 3 f_equal. lia.
Qed.

Lemma IocpChannelDrop_sequence_witness :
  Channel.drops 2 shared_channel
  = [(Some (Channel.with_refs shared_channel 1), []);
     (None, [EvFinalize; EvUnlock; EvLockDelete; EvFree])].
Proof.
  refine (IocpChannelDrop_sequence 1 shared_channel eq_refl _).
  vm_compute. discriminate.
Defined.

(** X18: from any buffer that satisfies its invariant, with requests
    [>= 0] and destinations with room, every move is defined and the
    counts returned add up to exactly the smaller of the length held and
    the total requested; the window that is left has the rest. *)
Theorem moves_deliver (reqs : list (list byte * Z)) :
  forall b : IocpDataBuffer,
    DataBufferInv b ->
    Forall (fun r => 0 <= snd r /\ room b (fst r) (snd r)) reqs ->
    exists tr,
      moves b reqs = Some tr /\
      total (map fst tr) = Z.min b.(len) (total (map snd reqs)) /\
      len (last (map snd tr) b) = b.(len) - total (map fst tr).
Proof.
  induction reqs as [|[out m] rest IH]; intros b Hinv Hreqs.
  - exists []. cbn. destruct Hinv as (_ & Hl & _).
    repeat split; lia.
  - inversion Hreqs as [|r rs [Hm Hroom] Hrest]; subst. cbn in Hm, Hroom.
    destruct (move_step b out m Hinv Hm Hroom) as [[out' [Hmove _]] Hinv'].
    set (n := Z.min (len b) m) in *.
    set (b' := mkDataBuffer (dataPtr b) (capacity b) (begin b + n) (len b - n))
      in *.
    assert (Hn : 0 <= n <= len b)
      by (destruct Hinv as (_ & Hl & _); subst n; lia).
    destruct (IH b' Hinv') as (tr & Htr & Hsum & Hlast).
    { eapply Forall_impl; [|exact Hrest]. intros [o k] [Hk Hr]; cbn in *.
      split; [exact Hk|]. destruct Hr as [Hr|Hr]; [left; exact Hr|right].
      subst b'; cbn. lia. }
    exists ((n, b') :: tr). cbn [moves]. rewrite Hmove, Htr.
    split; [reflexivity|]. cbn [map fst snd].
    assert (Hrest_nonneg : 0 <= total (map snd rest)).
    { clear - Hrest. induction Hrest as [|r rs [Hr _] _ IHr]; cbn; [lia|].
      fold (total (map snd rs)). lia. }
    cbn [total fold_right]. fold (total (map fst tr)).
    fold (total (map snd rest)).
    rewrite last_shift, Hlast, Hsum. subst b' n; cbn. split; lia.
Qed.

Lemma moves_from_inv_witness :
  DataBufferInv sample_buffer /\
  Forall (fun r : list byte * Z =>
            0 <= snd r /\ room sample_buffer (fst r) (snd r))
         [([x00], 1); ([x00; x00], 5)] /\
  buffer_run sample_buffer [([x00], 1); ([x00; x00], 5)].
Proof.
  assert (Hr : Forall (fun r : list byte * Z =>
                         0 <= snd r /\ room sample_buffer (fst r) (snd r))
                 [([x00], 1); ([x00; x00], 5)]).
  { repeat constructor; cbn; try lia; right; cbn; lia. }
  split; [exact sample_buffer_inv|]. split; [exact Hr|].
  exact (moves_from_inv [([x00], 1); ([x00; x00], 5)] sample_buffer
           sample_buffer_inv Hr).
Defined.

Lemma moves_deliver_witness :
  DataBufferInv sample_buffer /\
  Forall (fun r : list byte * Z =>
            0 <= snd r /\ room sample_buffer (fst r) (snd r))
         [([x00], 1); ([x00; x00], 5)] /\
  exists tr,
    moves sample_buffer [([x00], 1); ([x00; x00], 5)] = Some tr /\
    total (map fst tr) = Z.min (len sample_buffer) (1 + (5 + 0)) /\
    len (last (map snd tr) sample_buffer)
      = len sample_buffer - total (map fst tr).
Proof.
  assert (Hr : Forall (fun r : list byte * Z =>
                         0 <= snd r /\ room sample_buffer (fst r) (snd r))
                 [([x00], 1); ([x00; x00], 5)]).
  { repeat constructor; cbn; try lia; right; cbn; lia. }
  split; [exact sample_buffer_inv|]. split; [exact Hr|].
  exact (moves_deliver [([x00], 1); ([x00; x00], 5)] sample_buffer
           sample_buffer_inv Hr).
Defined.
